(** * InformBot: a shallow embedding of [bot.py] and its voting properties

    The bot arbitrates, by majority vote among the users of an IRC channel,
    which game is loaded into an interpreter process, which command is sent
    to it and whether it is stopped.  This file embeds the state of the
    [InformBot] class and the bodies of its methods as functions on an
    explicit state record, and proves properties of the vote bookkeeping,
    the quorum, the activity tracker and the replay buffer.

    Conventions of the embedding
    - [time.time()] is read from the environment: every clock read of a
      method is an argument of its model, in the order in which the method
      reads the clock.  Timestamps are integers (seconds).
    - [MAJORITY_RATIO] is a Python float.  The arithmetic of the quorum
      (line 86) is embedded in binary64, with its rounding and the raises
      of [int], as [required_votes_binary64].  The handlers use the quorum
      only as a number to compare vote counts with; their model reads the
      ratio as a rational and takes the product exactly, which is the
      binary64 value for the ratios 1, 1/2, 1/4, ... of the example runs.
    - A [dict] iterates in insertion order.  The two [defaultdict(set)]
      tallies, whose order decides [Counter.most_common], are association
      lists in bucket-creation order; the dicts that are only looked up are
      [gmap]s and the sets of nicks are [gset]s.
    - Text is ASCII: [strip] and [lower] act on the ASCII range.
    - Channel output and calls into the game process are collected as a
      list of [event]s; [debug_print] and [time.sleep] leave no trace.
    - The roster [users_in_channel] is only ever printed by [debug_print]
      and is left out, with the handlers that maintain it. *)

From Stdlib Require Import ZArith QArith Qround Ascii String Lia SpecFloat.
From stdpp Require Import base option list gmap strings pretty.

Local Open Scope string_scope.
Local Open Scope Z_scope.

(** ** Python string helpers *)

Module Py.

(** [str.isspace] on the ASCII range: TAB, LF, VT, FF, CR, the four
    separators FS, GS, RS, US and the space. *)
Definition isspace (a : ascii) : bool :=
  let n := nat_of_ascii a in
  ((9 <=? n)%nat && (n <=? 13)%nat) || ((28 <=? n)%nat && (n <=? 32)%nat).

Fixpoint lstrip_by (drop : ascii → bool) (s : string) : string :=
  match s with
  | String a s' => if drop a then lstrip_by drop s' else s
  | EmptyString => EmptyString
  end.

Definition rstrip_by (drop : ascii → bool) (s : string) : string :=
  String.rev (lstrip_by drop (String.rev s)).

(** [s.strip()] *)
Definition strip (s : string) : string :=
  rstrip_by isspace (lstrip_by isspace s).

(** [s.rstrip('\r\n')] *)
Definition rstrip_crlf (s : string) : string :=
  rstrip_by (λ a, bool_decide (a = "013"%char) || bool_decide (a = "010"%char)) s.

Definition lower_char (a : ascii) : ascii :=
  let n := nat_of_ascii a in
  if (65 <=? n)%nat && (n <=? 90)%nat then ascii_of_nat (n + 32) else a.

(** [s.lower()] *)
Fixpoint lower (s : string) : string :=
  match s with
  | String a s' => String (lower_char a) (lower s')
  | EmptyString => EmptyString
  end.

(** [s.startswith(p)] *)
Definition startswith (s p : string) : bool := String.prefix p s.

(** [s[n:]] *)
Fixpoint slice_from (n : nat) (s : string) : string :=
  match n, s with
  | O, _ => s
  | S n', String _ s' => slice_from n' s'
  | S _, EmptyString => EmptyString
  end.

(** [sep.join(parts)] *)
Fixpoint join (sep : string) (parts : list string) : string :=
  match parts with
  | [] => ""
  | [p] => p
  | p :: rest => p +:+ sep +:+ join sep rest
  end.

(** [os.path.join(a, b)] for two components (posixpath). *)
Definition ends_with_slash (s : string) : bool :=
  match String.rev s with
  | String a _ => bool_decide (a = "/"%char)
  | EmptyString => false
  end.

Definition path_join (a b : string) : string :=
  if startswith b "/" then b
  else if bool_decide (a = "") || ends_with_slash a then a +:+ b
  else a +:+ "/" +:+ b.

(** [int(x)] on a rational: truncation towards zero. *)
Definition int (x : Q) : Z := Z.quot (Qnum x) (Z.pos (Qden x)).

(** Truthiness of an optional timestamp ([None] and [0.0] are falsy). *)
Definition truthy (o : option Z) : bool :=
  match o with
  | Some t => negb (t =? 0)
  | None => false
  end.

End Py.

(** ** Python floats

    A Python float is an IEEE 754 binary64, given here by the sign, the
    mantissa and the exponent of its value, or as a zero, an infinity or a
    NaN.  Products are rounded to the nearest float, ties to even. *)

Module Float64.

Definition prec : Z := 53.
Definition emax : Z := 1024.

(** [float(n)] of an int, as [n * x] computes it for a float [x]: the
    nearest float; [None] for the [OverflowError] of an int that is out of
    range. *)
Definition of_int (n : Z) : option spec_float :=
  match binary_normalize prec emax n 0 false with
  | S754_infinity _ => None
  | x => Some x
  end.

(** [x * y] *)
Definition mul (x y : spec_float) : spec_float := SFmul prec emax x y.

(** [x / y], for the decimal fractions of the examples. *)
Definition div (x y : spec_float) : spec_float := SFdiv prec emax x y.

(** [int(x)]: truncation towards zero; [None] for the [OverflowError] on
    an infinity and the [ValueError] on a NaN. *)
Definition to_int (x : spec_float) : option Z :=
  match x with
  | S754_zero _ => Some 0
  | S754_finite s m e => Some (cond_Zopp s (Z.shiftl (Z.pos m) e))
  | S754_infinity _ | S754_nan => None
  end.



(** [1.0], and [2.0 ** -j] for a [j] up to 1022. *)
Definition one : spec_float := S754_finite false 4503599627370496 (-52).

Definition inv_pow2 (j : Z) : spec_float :=
  S754_finite false 4503599627370496 (-52 - j).

(** The float that the decimal fraction [a / b] of two small ints reads
    as, for instance [0.58] as [decimal 58 100]. *)
Definition decimal (a b : Z) : spec_float :=
  div (binary_normalize prec emax a 0 false) (binary_normalize prec emax b 0 false).


End Float64.

(** ** Settings ([settings.txt]) *)

Record settings := Settings {
  CHANNEL : string;
  BOT_NICK : string;
  GAME_DIR : string;
  VOTE_INTERVAL : Z;
  BUFFERLENGTH : Z;
  ACTIVE_DECAY : Z;
  MAJORITY_RATIO : Q
}.

(** ** Observable effects *)

Inductive event :=
| Privmsg (target text : string)   (* client.privmsg(target, text) *)
| GameStart (path : string)        (* InformGame(path) *)
| GameSend (command : string)      (* game.send_command(command) *)
| GameStop.                        (* game.stop() *)

Global Instance event_eq_dec : EqDecision event.
Proof. solve_decision. Defined.

(** The calls into the game process among a list of events. *)
Definition is_game_call (e : event) : bool :=
  match e with
  | Privmsg _ _ => false
  | _ => true
  end.

Definition game_calls (evs : list event) : list event :=
  List.filter is_game_call evs.

(** ** The state of [InformBot] *)

(** A [defaultdict(set)] from a choice to the nicks that chose it, in
    bucket-creation order. *)
Abbreviation tally := (list (string * gset string)).

Record InformBot := mkBot {
  game : option string;                     (* the running InformGame, by its path *)
  gamename : string;
  voter_choices : gmap string string;       (* user -> command *)
  votes : tally;                            (* command -> set of users *)
  game_votes : tally;                       (* game -> set of users *)
  game_voter_choices : gmap string string;  (* user -> game *)
  stopgame_voters : gset string;
  replay_buffer : list string;
  users_last_activity : gmap string Z;      (* nick -> last message timestamp *)
  command_vote_start : option Z;
  load_vote_start : option Z;
  stopgame_vote_start : option Z
}.

(** [InformBot.__init__] *)
Definition init : InformBot :=
  {| game := None; gamename := "Unknown";
     voter_choices := ∅; votes := [];
     game_votes := []; game_voter_choices := ∅;
     stopgame_voters := ∅; replay_buffer := [];
     users_last_activity := ∅;
     command_vote_start := None; load_vote_start := None;
     stopgame_vote_start := None |}.

Definition set_game (v : option string) (s : InformBot) : InformBot :=
  mkBot v (gamename s) (voter_choices s) (votes s) (game_votes s)
    (game_voter_choices s) (stopgame_voters s) (replay_buffer s)
    (users_last_activity s) (command_vote_start s) (load_vote_start s)
    (stopgame_vote_start s).

Definition set_gamename (v : string) (s : InformBot) : InformBot :=
  mkBot (game s) v (voter_choices s) (votes s) (game_votes s)
    (game_voter_choices s) (stopgame_voters s) (replay_buffer s)
    (users_last_activity s) (command_vote_start s) (load_vote_start s)
    (stopgame_vote_start s).

Definition set_voter_choices (v : gmap string string) (s : InformBot) : InformBot :=
  mkBot (game s) (gamename s) v (votes s) (game_votes s)
    (game_voter_choices s) (stopgame_voters s) (replay_buffer s)
    (users_last_activity s) (command_vote_start s) (load_vote_start s)
    (stopgame_vote_start s).

Definition set_votes (v : tally) (s : InformBot) : InformBot :=
  mkBot (game s) (gamename s) (voter_choices s) v (game_votes s)
    (game_voter_choices s) (stopgame_voters s) (replay_buffer s)
    (users_last_activity s) (command_vote_start s) (load_vote_start s)
    (stopgame_vote_start s).

Definition set_game_votes (v : tally) (s : InformBot) : InformBot :=
  mkBot (game s) (gamename s) (voter_choices s) (votes s) v
    (game_voter_choices s) (stopgame_voters s) (replay_buffer s)
    (users_last_activity s) (command_vote_start s) (load_vote_start s)
    (stopgame_vote_start s).

Definition set_game_voter_choices (v : gmap string string) (s : InformBot) : InformBot :=
  mkBot (game s) (gamename s) (voter_choices s) (votes s) (game_votes s)
    v (stopgame_voters s) (replay_buffer s)
    (users_last_activity s) (command_vote_start s) (load_vote_start s)
    (stopgame_vote_start s).

Definition set_stopgame_voters (v : gset string) (s : InformBot) : InformBot :=
  mkBot (game s) (gamename s) (voter_choices s) (votes s) (game_votes s)
    (game_voter_choices s) v (replay_buffer s)
    (users_last_activity s) (command_vote_start s) (load_vote_start s)
    (stopgame_vote_start s).

Definition set_replay_buffer (v : list string) (s : InformBot) : InformBot :=
  mkBot (game s) (gamename s) (voter_choices s) (votes s) (game_votes s)
    (game_voter_choices s) (stopgame_voters s) v
    (users_last_activity s) (command_vote_start s) (load_vote_start s)
    (stopgame_vote_start s).

Definition set_users_last_activity (v : gmap string Z) (s : InformBot) : InformBot :=
  mkBot (game s) (gamename s) (voter_choices s) (votes s) (game_votes s)
    (game_voter_choices s) (stopgame_voters s) (replay_buffer s)
    v (command_vote_start s) (load_vote_start s)
    (stopgame_vote_start s).

Definition set_command_vote_start (v : option Z) (s : InformBot) : InformBot :=
  mkBot (game s) (gamename s) (voter_choices s) (votes s) (game_votes s)
    (game_voter_choices s) (stopgame_voters s) (replay_buffer s)
    (users_last_activity s) v (load_vote_start s)
    (stopgame_vote_start s).

Definition set_load_vote_start (v : option Z) (s : InformBot) : InformBot :=
  mkBot (game s) (gamename s) (voter_choices s) (votes s) (game_votes s)
    (game_voter_choices s) (stopgame_voters s) (replay_buffer s)
    (users_last_activity s) (command_vote_start s) v
    (stopgame_vote_start s).

Definition set_stopgame_vote_start (v : option Z) (s : InformBot) : InformBot :=
  mkBot (game s) (gamename s) (voter_choices s) (votes s) (game_votes s)
    (game_voter_choices s) (stopgame_voters s) (replay_buffer s)
    (users_last_activity s) (command_vote_start s) (load_vote_start s)
    v.

(** ** Tallies: [defaultdict(set)] and [Counter] *)

(** [d[k].op(...)]: the bucket of [k] is updated in place; a missing key
    first gets an empty bucket, appended after the existing ones. *)
Fixpoint dd_update (f : gset string → gset string) (k : string) (d : tally) : tally :=
  match d with
  | [] => [(k, f ∅)]
  | (k', users) :: d' =>
      if decide (k' = k) then (k', f users) :: d'
      else (k', users) :: dd_update f k d'
  end.

(** [d[k].discard(user)] and [d[k].add(user)] *)
Definition dd_discard (k user : string) (d : tally) : tally :=
  dd_update (λ users, users ∖ {[user]}) k d.

Definition dd_add (k user : string) (d : tally) : tally :=
  dd_update (λ users, users ∪ {[user]}) k d.

(** [Counter({k: len(users) for k, users in d.items()})] *)
Definition vote_counts (d : tally) : list (string * nat) :=
  (λ b, (b.1, size b.2)) <$> d.

(** [Counter.most_common(1)] is [heapq.nlargest(1, items, key=count)],
    which for [n = 1] is [max(items, key=count)]: a later item replaces
    the running maximum only when its count is strictly larger. *)
Fixpoint max_by_count (best : string * nat) (rest : list (string * nat)) : string * nat :=
  match rest with
  | [] => best
  | x :: rest' =>
      if (best.2 <? x.2)%nat then max_by_count x rest' else max_by_count best rest'
  end.

(** [counter.most_common(1)[0]], [None] standing for the [IndexError] on
    an empty counter. *)
Definition most_common1 (c : list (string * nat)) : option (string * nat) :=
  match c with
  | [] => None
  | x :: rest => Some (max_by_count x rest)
  end.

(** The nicks counted in the bucket of [k] (none if there is no bucket). *)
Fixpoint bucket (k : string) (d : tally) : gset string :=
  match d with
  | [] => ∅
  | (k', users) :: d' => if decide (k' = k) then users else bucket k d'
  end.

(** The keys of the buckets that count [user], in order. *)
Definition buckets_of (user : string) (d : tally) : list string :=
  (λ b, b.1) <$> filter (λ b, user ∈ b.2) d.

(** ** Consistency of a ballot *)

(** The tally and the choice map of a ballot agree: choices have one
    bucket each, and a nick is counted for a choice exactly when it is the
    nick's recorded choice.  A bucket is a set, so it cannot count a nick
    twice. *)
Definition tally_consistent (choices : gmap string string) (d : tally) : Prop :=
  NoDup d.*1 ∧ ∀ user k, user ∈ bucket k d ↔ choices !! user = Some k.

(** Both ballots with a tally are consistent. *)
Definition bot_inv (s : InformBot) : Prop :=
  tally_consistent (voter_choices s) (votes s)
  ∧ tally_consistent (game_voter_choices s) (game_votes s).

(** A ballot that holds a vote has its start time set. *)
Definition timers_cover_votes (s : InformBot) : Prop :=
  (voter_choices s = ∅ ∨ is_Some (command_vote_start s))
  ∧ (game_voter_choices s = ∅ ∨ is_Some (load_vote_start s))
  ∧ (stopgame_voters s = ∅ ∨ is_Some (stopgame_vote_start s)).

Section Bot.

Context (cfg : settings).

(** ** Activity tracker and quorum *)

(** [get_active_user_count], the clock read being [now]. *)
Definition inactive_users (cutoff : Z) (m : gmap string Z) : list string :=
  (λ p, p.1) <$> filter (λ p, p.2 < cutoff) (map_to_list m).

Definition purge (cutoff : Z) (m : gmap string Z) : gmap string Z :=
  foldl (λ m' user, delete user m') m (inactive_users cutoff m).

Definition active_users (m : gmap string Z) : list string :=
  filter (λ u, u ≠ BOT_NICK cfg) ((λ p, p.1) <$> map_to_list m).

Definition get_active_user_count (s : InformBot) (now : Z) : nat * InformBot :=
  let cutoff := now - ACTIVE_DECAY cfg in
  let s := set_users_last_activity (purge cutoff (users_last_activity s)) s in
  (length (active_users (users_last_activity s)), s).

(** Line 86, [max(1, int(active_count * MAJORITY_RATIO) + 1)], in the
    arithmetic of the code: the count is converted to a float, the product
    is rounded and [int] truncates it.  [None] when one of these raises. *)
Definition required_votes_binary64 (active_count : Z) (ratio : spec_float)
    : option Z :=
  x ← Float64.of_int active_count;
  q ← Float64.to_int (Float64.mul x ratio);
  Some (Z.max 1 (q + 1)).

(** The same line with the ratio read as a rational and the product taken
    exactly.  The model of the handlers takes the quorum from this reading;
    it is the value of line 86 wherever the product of the code is exact,
    as it is for the ratios 1, 1/2, 1/4, ... *)
Definition required_votes_of (active_count : nat) (ratio : Q) : Z :=
  Z.max 1 (Py.int (inject_Z (Z.of_nat active_count) * ratio) + 1).

(** [get_required_votes], the clock read being [now]. *)
Definition get_required_votes (s : InformBot) (now : Z) : Z * InformBot :=
  let '(active_count, s) := get_active_user_count s now in
  (required_votes_of active_count (MAJORITY_RATIO cfg), s).

(** The line of [_handle_status]. *)
Definition _handle_status (s : InformBot) (now : Z) : InformBot * list event :=
  let '(required_votes, s) := get_required_votes s now in
  let game_status :=
    match game s with
    | Some _ => "Active game: " +:+ gamename s
    | None => "No game loaded."
    end in
  let text :=
    game_status +:+ " | " +:+
    "Vote interval: " +:+ pretty (VOTE_INTERVAL cfg) +:+ "s | " +:+
    "Majority threshold: " +:+ pretty required_votes +:+ " votes | " +:+
    "Replay buffer size: " +:+ pretty (length (replay_buffer s)) +:+ "/" +:+
    pretty (BUFFERLENGTH cfg) in
  (s, [Privmsg (CHANNEL cfg) text]).

(** ** Casting votes *)

(** [if not start: start = time.time()] *)
Definition start_if_unset (start : option Z) (now : Z) : option Z :=
  if Py.truthy start then start else Some now.

(** Lines 142-144 and 190-192: a user with a recorded choice leaves the
    bucket of that choice. *)
Definition retract_vote (user : string) (choices : gmap string string) (d : tally) : tally :=
  match choices !! user with
  | Some old => dd_discard old user d
  | None => d
  end.

(** Lines 147-148 and 195-196: the new choice is recorded and counted. *)
Definition record_vote (user choice : string) (choices : gmap string string) (d : tally)
    : gmap string string * tally :=
  (<[user := choice]> choices, dd_add choice user d).

Definition cast_vote (user choice : string) (choices : gmap string string) (d : tally)
    : gmap string string * tally :=
  record_vote user choice choices (retract_vote user choices d).

(** ** The report of [!vote] without argument *)

Definition plural (n : Z) : string := if bool_decide (n ≠ 1) then "s" else "".

Definition nonzero_counts (d : tally) : list (string * nat) :=
  filter (λ c, (0 < c.2)%nat) (vote_counts d).

Definition vote_status (s : InformBot) (now : Z) : list string :=
  let load_msgs :=
    match game_votes s with
    | [] => []
    | _ =>
        let parts :=
          (λ c, c.1 +:+ ": " +:+ pretty c.2 +:+ " vote" +:+ plural (Z.of_nat c.2))
            <$> nonzero_counts (game_votes s) in
        ("Load votes: " +:+ Py.join ", " parts) ::
        match load_vote_start s with
        | Some start =>
            if Py.truthy (Some start) then
              let time_elapsed := now - start in
              let time_remaining := Z.max 0 (VOTE_INTERVAL cfg - time_elapsed) in
              ["!! " +:+ pretty time_remaining +:+ " second" +:+ plural time_remaining
                 +:+ " left to vote. !!"]
            else []
        | None => []
        end
    end in
  let command_msgs :=
    match votes s with
    | [] => []
    | _ =>
        let parts :=
          (λ c, "'" +:+ c.1 +:+ "': " +:+ pretty c.2 +:+ " vote" +:+ plural (Z.of_nat c.2))
            <$> nonzero_counts (votes s) in
        ("Command votes: " +:+ Py.join ", " parts) ::
        match command_vote_start s with
        | Some start =>
            if Py.truthy (Some start) then
              let time_elapsed := now - start in
              let time_remaining := VOTE_INTERVAL cfg - time_elapsed in
              ["!! " +:+ pretty time_remaining +:+ " second" +:+ plural time_remaining
                 +:+ " left to vote. !!"]
            else []
        | None => []
        end
    end in
  load_msgs ++ command_msgs.

(** ** [on_pubmsg]

    [raw] is [event.arguments[0]], [user] is [event.source.nick], [now] is
    the clock read of line 129 and [now'] the one later clock read that a
    branch may make; [games] is what [list_games()] returns if it is
    called. *)
Definition on_pubmsg (s : InformBot) (user raw : string) (now now' : Z)
    (games : list string) : InformBot * list event :=
  let msg := Py.strip raw in
  let s := set_users_last_activity (<[user := now]> (users_last_activity s)) s in
  let say text := Privmsg (CHANNEL cfg) text in
  if bool_decide (Py.lower msg = "!games") then
    (s, [say (match games with
              | [] => "No games found."
              | _ => "Available games: " +:+ Py.join ", " games
              end)])
  else if Py.startswith (Py.lower msg) "!load " then
    let game_name := Py.strip (Py.slice_from 6 msg) in
    if bool_decide (game_name ∈ games) then
      let '(choices, d) := cast_vote user game_name (game_voter_choices s) (game_votes s) in
      let s := set_game_votes d (set_game_voter_choices choices s) in
      (set_load_vote_start (start_if_unset (load_vote_start s) now') s, [])
    else
      (s, [say (user +:+ ": game '" +:+ game_name +:+ "' not found.")])
  else if Py.startswith (Py.lower msg) "!vote" then
    let cmd := Py.strip (Py.slice_from 5 msg) in
    if bool_decide (cmd = "") then
      match vote_status s now with
      | [] => (s, [say "No active votes currently."])
      | status_msgs => (s, say <$> status_msgs)
      end
    else
      match game s with
      | None =>
          (s, [say "No game loaded. Vote to load a game first using: !load <gamefile>"])
      | Some _ =>
          let '(choices, d) := cast_vote user cmd (voter_choices s) (votes s) in
          let s := set_votes d (set_voter_choices choices s) in
          (set_command_vote_start (start_if_unset (command_vote_start s) now') s, [])
      end
  else if bool_decide (Py.lower msg = "!stopgame") then
    match game s with
    | None => (s, [say "No game is currently running."])
    | Some _ =>
        if bool_decide (user ∉ stopgame_voters s) then
          let s := set_stopgame_voters (stopgame_voters s ∪ {[user]}) s in
          (set_stopgame_vote_start (start_if_unset (stopgame_vote_start s) now') s, [])
        else
          (s, [say (user +:+ ": you already voted to stop the game this round.")])
    end
  else if bool_decide (Py.lower msg = "!replay") then
    match replay_buffer s with
    | [] => (s, [say "No lines to replay yet."])
    | lines => (s, say <$> lines)
    end
  else if bool_decide (Py.lower msg = "!status") then
    _handle_status s now'
  else if bool_decide (Py.lower msg = "!help") then
    (s, [say "Commands: !games, !load <gamefile>, !vote <command>, !stopgame, !replay, !status"])
  else
    (s, []).

(** ** [load_game] *)
Definition load_game (s : InformBot) (gamefile : string) : InformBot * list event :=
  let stopped :=
    match game s with
    | Some _ => [GameStop; Privmsg (CHANNEL cfg) "Previous game stopped."]
    | None => []
    end in
  let path := Py.path_join (GAME_DIR cfg) gamefile in
  (set_game (Some path) s, (stopped ++ [GameStart path])%list).

(** ** One iteration of [_vote_loop] *)

(** [start and (now - start >= VOTE_INTERVAL)] *)
Definition due (start : option Z) (now : Z) : bool :=
  match start with
  | Some t => Py.truthy start && (VOTE_INTERVAL cfg <=? now - t)
  | None => false
  end.

(** Lines 320-333, reached when a game is loaded. *)
Definition command_phase (s : InformBot) (required_votes now : Z) : InformBot * list event :=
  if due (command_vote_start s) now then
    match votes s with
    | [] => (s, [])
    | _ :: _ =>
        match most_common1 (vote_counts (votes s)) with
        | Some (top_cmd, top_votes) =>
            let evs :=
              if required_votes <=? Z.of_nat top_votes then
                [GameSend top_cmd; Privmsg (CHANNEL cfg) ("> " +:+ top_cmd)]
              else
                [Privmsg (CHANNEL cfg) "No majority for command. Votes cleared."] in
            let s := set_voter_choices ∅ (set_votes [] s) in
            (set_command_vote_start None s, evs)
        | None => (s, [])
        end
    end
  else (s, []).

(** Lines 315-318, then the command phase. *)
Definition session_phase (s : InformBot) (required_votes now : Z) : InformBot * list event :=
  match game s with
  | None => (set_voter_choices ∅ (set_votes [] s), [])
  | Some _ => command_phase s required_votes now
  end.

(** The five [clear()] calls shared by lines 289-293 and 307-311. *)
Definition clear_all_votes (s : InformBot) : InformBot :=
  set_stopgame_voters ∅
    (set_voter_choices ∅ (set_votes []
       (set_game_voter_choices ∅ (set_game_votes [] s)))).

(** Lines 297-313, falling through to the session phase. *)
Definition stopgame_phase (s : InformBot) (required_votes now : Z) : InformBot * list event :=
  if due (stopgame_vote_start s) now then
    match game s with
    | Some _ =>
        if bool_decide (stopgame_voters s ≠ ∅) then
          let stop_votes := size (stopgame_voters s) in
          let '(s, evs) :=
            if required_votes <=? Z.of_nat stop_votes then
              (set_game None s,
               [GameStop; Privmsg (CHANNEL cfg) "Game stopped by vote."])
            else
              (s, [Privmsg (CHANNEL cfg) "No majority to stop game. Votes cleared."]) in
          (set_stopgame_vote_start None (clear_all_votes s), evs)
        else session_phase s required_votes now
    | None => session_phase s required_votes now
    end
  else session_phase s required_votes now.

(** Lines 278-295, falling through to the stop phase. *)
Definition load_phase (s : InformBot) (required_votes now : Z) : InformBot * list event :=
  if due (load_vote_start s) now then
    match game_votes s with
    | [] => stopgame_phase s required_votes now
    | _ :: _ =>
        match most_common1 (vote_counts (game_votes s)) with
        | Some (top_game, top_votes) =>
            let '(s, evs) :=
              if required_votes <=? Z.of_nat top_votes then
                let '(s, evs) := load_game s top_game in
                (s, (evs ++ [Privmsg (CHANNEL cfg) ("Loading game: " +:+ top_game)])%list)
              else
                (s, [Privmsg (CHANNEL cfg) "No majority to load game. Votes cleared."]) in
            (set_load_vote_start None (clear_all_votes s), evs)
        | None => (s, [])
        end
    end
  else stopgame_phase s required_votes now.

(** The body of the [while True] loop: [now] is the clock read of line
    271, [t1] and [t2] those of the two activity counts of lines 274 and
    276. *)
Definition _vote_loop (s : InformBot) (now t1 t2 : Z) : InformBot * list event :=
  let '(active_count, s) := get_active_user_count s t1 in
  let '(required_votes, s) := get_required_votes s t2 in
  load_phase s required_votes now.

(** The quorum that an iteration starting in [s] computes. *)
Definition tick_required_votes (s : InformBot) (t1 t2 : Z) : Z :=
  (get_required_votes (get_active_user_count s t1).2 t2).1.

(** ** The replay buffer and the relay of the game output *)

(** Lines 367-369: [append], then [pop(0)] when over [BUFFERLENGTH]. *)
Definition replay_append (line : string) (buf : list string) : list string :=
  let buf := (buf ++ [line])%list in
  if BUFFERLENGTH cfg <? Z.of_nat (length buf) then tail buf else buf.

(** The buffer after the relay appended [lines], in this order, to [buf]. *)
Definition appended (buf : list string) (lines : list string) : list string :=
  foldl (λ b line, replay_append line b) buf lines.

(** The local variables of [_relay_game_output]. *)
Record relay_locals := mkRelay {
  first_line_set : bool;
  game_name_counter : nat
}.

Definition relay_start : relay_locals := mkRelay false 0.

(** What one pass through the body of the loop meets.  The body runs inside
    a [try]: [readline()] returns a line or raises, and for a line that is
    to be forwarded [client.privmsg] returns ([sent]) or raises, as it does
    on a line too long for a message or without a connection.  A call that
    raises sends nothing. *)
Inductive reading :=
| Raises
| Line (line : string) (sent : bool).

(** One pass through the body of the loop of [_relay_game_output].  The
    locals of the result are [None] when the [except] clause has left the
    loop with [break]: then the name of the game may have been set (lines
    359-364 come before the [privmsg] of line 366), and nothing is appended
    to the replay buffer. *)
Definition _relay_game_output (r : relay_locals) (s : InformBot) (x : reading)
    : option relay_locals * InformBot * list event :=
  match x with
  | Raises => (None, s, [])
  | Line line sent =>
      if bool_decide (line = "") then (Some r, s, [])
      else
        let line := Py.rstrip_crlf line in
        if bool_decide (line = "") then (Some r, s, [])
        else
          let '(r, s) :=
            if negb (first_line_set r) then
              let counter := S (game_name_counter r) in
              if bool_decide (counter = 3%nat)
              then (mkRelay true counter, set_gamename line s)
              else (mkRelay (first_line_set r) counter, s)
            else (r, s) in
          if sent then
            (Some r, set_replay_buffer (replay_append line (replay_buffer s)) s,
             [Privmsg (CHANNEL cfg) line])
          else (None, s, [])
  end.

(** ** Runs of the bot *)

Inductive input :=
| Message (user raw : string) (now now' : Z) (games : list string)
| Tick (now t1 t2 : Z)
| Output (r : relay_locals) (x : reading).

Definition step (s : InformBot) (i : input) : InformBot * list event :=
  match i with
  | Message user raw now now' games => on_pubmsg s user raw now now' games
  | Tick now t1 t2 => _vote_loop s now t1 t2
  | Output r x =>
      let '(_, s, evs) := _relay_game_output r s x in (s, evs)
  end.

Definition run (s : InformBot) (inputs : list input) : InformBot :=
  foldl (λ s i, (step s i).1) s inputs.

Definition reachable (s : InformBot) : Prop :=
  ∃ inputs, run init inputs = s.

(** ** Resolutions *)

Inductive category := LoadGame | StopGame | Command.

(** The resolution that the iteration of [_vote_loop] at [now] performs in
    state [s], with the choice that leads the ballot and its number of
    votes: the guards of lines 278-279, 297-298, 315 and 320-321, in the
    order of the loop body.  A stop vote has no choice; its count is the
    number of stop voters. *)
Definition resolution (s : InformBot) (now : Z) : option (category * string * nat) :=
  if due (load_vote_start s) now && bool_decide (game_votes s ≠ []) then
    (λ c, (LoadGame, c.1, c.2)) <$> most_common1 (vote_counts (game_votes s))
  else if due (stopgame_vote_start s) now && bool_decide (is_Some (game s))
          && bool_decide (stopgame_voters s ≠ ∅) then
    Some (StopGame, "", size (stopgame_voters s))
  else if bool_decide (game s = None) then None
  else if due (command_vote_start s) now && bool_decide (votes s ≠ []) then
    (λ c, (Command, c.1, c.2)) <$> most_common1 (vote_counts (votes s))
  else None.

(** The calls into the game process that make up the action of a
    category.  [load_game] stops a running game before it starts the
    chosen one. *)
Definition dispatch (c : category) (s : InformBot) (choice : string) : list event :=
  match c with
  | LoadGame =>
      (match game s with Some _ => [GameStop] | None => [] end
       ++ [GameStart (Py.path_join (GAME_DIR cfg) choice)])%list
  | StopGame => [GameStop]
  | Command => [GameSend choice]
  end.

Definition ballot_cleared (c : category) (s : InformBot) : Prop :=
  match c with
  | LoadGame =>
      game_votes s = [] ∧ game_voter_choices s = ∅ ∧ load_vote_start s = None
  | StopGame =>
      stopgame_voters s = ∅ ∧ stopgame_vote_start s = None
  | Command =>
      votes s = [] ∧ voter_choices s = ∅ ∧ command_vote_start s = None
  end.

End Bot.

(** ** Example settings and runs *)

Definition example_settings : settings :=
  {| CHANNEL := "#if"; BOT_NICK := "informbot"; GAME_DIR := "games";
     VOTE_INTERVAL := 30; BUFFERLENGTH := 5; ACTIVE_DECAY := 60;
     MAJORITY_RATIO := 1 # 2 |}.

(** The iterations of [_vote_loop] at the seconds [from], [from + 1], ...,
    [n] of them. *)
Fixpoint ticks (from : Z) (n : nat) : list input :=
  match n with
  | O => []
  | S n' => Tick from from from :: ticks (from + 1) n'
  end.

Definition games_dir : list string := ["zork"; "advent"].

(** alice has zork loaded by vote at second 130. *)
Definition run_zork : list input :=
  (Message "alice" "!load zork" 100 100 games_dir :: ticks 101 30)%list.

(** Then alice and bob vote for advent, bob votes a command and carol
    votes to stop; the load vote, started at 135, is due at 165. *)
Definition run_before_load : list input :=
  (run_zork
   ++ ticks 131 4
   ++ Message "alice" "!load advent" 135 135 games_dir :: Tick 135 135 135
   :: Message "bob" "!load advent" 136 136 games_dir :: ticks 136 4
   ++ Message "bob" "!vote north" 140 140 [] :: Tick 140 140 140
   :: Message "carol" "!stopgame" 141 141 [] :: ticks 141 24)%list.

Definition state_before_load : InformBot :=
  run example_settings init run_before_load.

(** After zork is loaded, bob and carol vote to stop and bob votes a
    command; the stop vote, started at 139, is due at 169. *)
Definition run_before_stop : list input :=
  (run_zork
   ++ ticks 131 8
   ++ Message "bob" "!stopgame" 139 139 [] :: Tick 139 139 139
   :: Message "carol" "!stopgame" 140 140 [] :: Tick 140 140 140
   :: Message "bob" "!vote north" 141 141 [] :: ticks 141 28)%list.

Definition state_before_stop : InformBot :=
  run example_settings init run_before_stop.

Definition state_after_stop : InformBot :=
  run example_settings init (run_before_stop ++ [Tick 169 169 169]).

(** After zork is loaded, alice and carol vote north and bob votes south;
    the command vote, started at 140, is due at 170. *)
Definition run_before_command : list input :=
  (run_zork
   ++ ticks 131 9
   ++ Message "alice" "!vote north" 140 140 [] :: Tick 140 140 140
   :: Message "bob" "!vote south" 141 141 [] :: Tick 141 141 141
   :: Message "carol" "!vote north" 142 142 [] :: ticks 142 28)%list.

(** Settings under which one vote out of two active users is a quorum. *)
Definition quarter_settings : settings :=
  {| CHANNEL := "#if"; BOT_NICK := "informbot"; GAME_DIR := "games";
     VOTE_INTERVAL := 30; BUFFERLENGTH := 5; ACTIVE_DECAY := 60;
     MAJORITY_RATIO := 1 # 4 |}.

(** After zork is loaded, alice votes south and then bob votes north. *)
Definition run_before_tie : list input :=
  (run_zork
   ++ ticks 131 9
   ++ Message "alice" "!vote south" 140 140 [] :: Tick 140 140 140
   :: Message "bob" "!vote north" 141 141 [] :: ticks 141 29)%list.

(** A tie between two commands. *)
Definition tied_tally : tally :=
  [("south", {["alice"]}); ("north", {["bob"]})].

(** ** The roster of the channel *)

Module Roster.

(** [nick[0] in ('@', '+', '%', '&', '~')] *)
Definition is_prefix_char (a : ascii) : bool :=
  bool_decide (a ∈ ["@"; "+"; "%"; "&"; "~"]%char).

(** [while nick and nick[0] in (...): nick = nick[1:]] *)
Definition strip_prefixes (nick : string) : string :=
  Py.lstrip_by is_prefix_char nick.

(** [s.split()]: the maximal runs of characters that are not whitespace,
    [cur] being the run read so far, last character first. *)
Definition flush (cur : string) : list string :=
  if bool_decide (cur = "") then [] else [String.rev cur].

Fixpoint split_go (cur : string) (s : string) : list string :=
  match s with
  | EmptyString => flush cur
  | String a s' =>
      if Py.isspace a then (flush cur ++ split_go "" s')%list
      else split_go (String a cur) s'
  end.

Definition split (s : string) : list string := split_go "" s.

Section Handlers.

Context (cfg : settings).

(** The body of the loop of [on_names] for one raw nick. *)
Definition add_clean (clean_users : gset string) (nick : string) : gset string :=
  let nick := strip_prefixes nick in
  if bool_decide (nick ≠ BOT_NICK cfg) then clean_users ∪ {[nick]}
  else clean_users.

(** [on_names]: [channel] is [event.arguments[1]], [names] is
    [event.arguments[2]]. *)
Definition on_names (users_in_channel : gset string) (channel names : string)
    : gset string :=
  if bool_decide (channel = CHANNEL cfg) then
    foldl add_clean ∅ (split names)
  else users_in_channel.

(** [on_join]: [target] is [event.target], [nick] is [event.source.nick]. *)
Definition on_join (users_in_channel : gset string) (target nick : string)
    : gset string :=
  if bool_decide (target = CHANNEL cfg) then
    if bool_decide (nick ≠ BOT_NICK cfg) then users_in_channel ∪ {[nick]}
    else users_in_channel
  else users_in_channel.

(** [on_part] *)
Definition on_part (users_in_channel : gset string) (target nick : string)
    : gset string :=
  if bool_decide (target = CHANNEL cfg) then users_in_channel ∖ {[nick]}
  else users_in_channel.

(** [on_quit] and [on_kick] discard the nick whatever the channel. *)
Definition on_quit (users_in_channel : gset string) (nick : string) : gset string :=
  users_in_channel ∖ {[nick]}.

Definition on_kick (users_in_channel : gset string) (nick : string) : gset string :=
  users_in_channel ∖ {[nick]}.

Inductive roster_event :=
| Names (channel names : string)
| Join (target nick : string)
| Part (target nick : string)
| Quit (nick : string)
| Kick (nick : string).

Definition roster_step (users_in_channel : gset string) (e : roster_event)
    : gset string :=
  match e with
  | Names channel names => on_names users_in_channel channel names
  | Join target nick => on_join users_in_channel target nick
  | Part target nick => on_part users_in_channel target nick
  | Quit nick => on_quit users_in_channel nick
  | Kick nick => on_kick users_in_channel nick
  end.

(** The roster after a sequence of events, from the empty roster of
    [__init__]. *)
Definition roster_run (events : list roster_event) : gset string :=
  foldl roster_step ∅ events.

End Handlers.

End Roster.

(** [list_games]: [listing] is what [os.listdir(GAME_DIR)] returns, [None]
    if it raises. *)
Definition list_games (listing : option (list string)) : list string :=
  match listing with
  | Some games => games
  | None => []
  end.

(** ** Loops and traces *)

Section Traces.

Context (cfg : settings).

(** The loop of [_relay_game_output] over what its passes meet while the
    game runs; it ends at the first pass that raises. *)
Fixpoint relay_lines (r : relay_locals) (s : InformBot) (reads : list reading)
    : option relay_locals * InformBot * list event :=
  match reads with
  | [] => (Some r, s, [])
  | x :: reads' =>
      match _relay_game_output cfg r s x with
      | (Some r1, s1, evs1) =>
          let '(r2, s2, evs2) := relay_lines r1 s1 reads' in
          (r2, s2, (evs1 ++ evs2)%list)
      | (None, s1, evs1) => (None, s1, evs1)
      end
  end.

(** Lines stripped of their line end, the empty ones left out. *)
Definition forwarded (lines : list string) : list string :=
  filter (λ line, line ≠ "") (Py.rstrip_crlf <$> lines).

(** The lines that reach the channel: those read before the first pass
    that raises, stripped of their line end, the empty ones left out. *)
Fixpoint delivered (reads : list reading) : list string :=
  match reads with
  | [] => []
  | Raises :: _ => []
  | Line line sent :: reads' =>
      if bool_decide (Py.rstrip_crlf line = "") then delivered reads'
      else if sent then Py.rstrip_crlf line :: delivered reads'
      else []
  end.

(** The lines that reach the name bookkeeping of lines 359-364: the
    delivered ones and, if [client.privmsg] raises, the line it was called
    with. *)
Fixpoint named (reads : list reading) : list string :=
  match reads with
  | [] => []
  | Raises :: _ => []
  | Line line sent :: reads' =>
      if bool_decide (Py.rstrip_crlf line = "") then named reads'
      else Py.rstrip_crlf line :: (if sent then named reads' else [])
  end.

(** A relay none of whose passes raises. *)
Definition all_sent (lines : list string) : list reading :=
  (λ line, Line line true) <$> lines.

(** The events of a run, in order. *)
Fixpoint run_events (s : InformBot) (inputs : list input) : list event :=
  match inputs with
  | [] => []
  | i :: inputs' => ((step cfg s i).2 ++ run_events (step cfg s i).1 inputs')%list
  end.

(** An event that is a message to the bot's channel. *)
Definition to_channel (e : event) : Prop :=
  ∃ text, e = Privmsg (CHANNEL cfg) text.

(** The games that the listings of the messages of a run offered. *)
Fixpoint listed (inputs : list input) : list string :=
  match inputs with
  | [] => []
  | Message _ _ _ _ games :: inputs' => (games ++ listed inputs')%list
  | _ :: inputs' => listed inputs'
  end.

End Traces.

(** The life of the game process as the calls into it show it: [None] if
    a call comes out of turn (a start over a running game, a command or a
    stop without one), otherwise whether a game runs after the calls. *)
Fixpoint session_trace (running : bool) (evs : list event) : option bool :=
  match evs with
  | [] => Some running
  | Privmsg _ _ :: evs' => session_trace running evs'
  | GameStart _ :: evs' => if running then None else session_trace true evs'
  | GameSend _ :: evs' => if running then session_trace true evs' else None
  | GameStop :: evs' => if running then session_trace false evs' else None
  end.

(** Whether the state holds a game. *)
Definition runs (s : InformBot) : bool := bool_decide (is_Some (game s)).

(** The three ballots of a state. *)
Definition command_ballot (s : InformBot) : gmap string string * tally * option Z :=
  (voter_choices s, votes s, command_vote_start s).

Definition load_ballot (s : InformBot) : gmap string string * tally * option Z :=
  (game_voter_choices s, game_votes s, load_vote_start s).

Definition stop_ballot (s : InformBot) : gset string * option Z :=
  (stopgame_voters s, stopgame_vote_start s).

(** The number of votes that a tally counts. *)
Definition total_votes (d : tally) : nat :=
  foldr (λ b n, (size b.2 + n)%nat) 0%nat d.

(** The number of users whose recorded choice is [c]. *)
Definition supporters (choices : gmap string string) (c : string) : nat :=
  size (filter (λ p : string * string, p.2 = c) choices).

(** The first lines of a game, as [readline()] returns them, and a names
    reply. *)
Definition banner_lines : list string :=
  [String "010" ""; "Using normal formatting." +:+ String "010" "";
   "Loading games/zork." +:+ String "013" (String "010" "");
   String "010" ""; "ZORK I: The Great Underground Empire" +:+ String "010" "";
   "West of House" +:+ String "010" ""; ""].

Definition names_reply : string := "@alice +bob  informbot ~@carol".

(** A relay whose second line is too long for one message, so that
    [client.privmsg] raises on it, and one whose connection is lost at
    the third line. *)
Definition long_line : string :=
  String.concat "" (replicate 520 "x") +:+ String "010" "".

Definition reads_long_line : list reading :=
  [Line ("one" +:+ String "010" "") true; Line long_line false;
   Line ("two" +:+ String "010" "") true; Line ("three" +:+ String "010" "") true].

Definition reads_lost_connection : list reading :=
  [Line ("one" +:+ String "010" "") true; Line ("two" +:+ String "010" "") true;
   Line ("three" +:+ String "010" "") false; Line ("four" +:+ String "010" "") true].

(** The state before the command vote of [run_before_command] is resolved. *)
Definition state_before_command : InformBot :=
  run example_settings init run_before_command.

(** * Properties *)

(** ** Quorum *)

(** *** Floats: exact conversions and products *)

Lemma digits2_pos_size (p : positive) : digits2_pos p = Pos.size p.
Proof. induction p; simpl; congruence. Qed.

Lemma digits2_pos_iter (p k : positive) :
  digits2_pos (Pos.iter xO p k) = (digits2_pos p + k)%positive.
Proof.
  induction k as [|k IH] using Pos.peano_ind.
  - simpl. lia.
  - rewrite Pos.iter_succ. simpl. rewrite IH. lia.
Qed.

Lemma Zpos_iter (p k : positive) :
  Z.pos (Pos.iter xO p k) = Z.pos p * 2 ^ Z.pos k.
Proof.
  induction k as [|k IH] using Pos.peano_ind.
  - simpl. lia.
  - rewrite Pos.iter_succ, Pos2Z.inj_succ, Z.pow_succ_r by lia.
    change (Z.pos (Pos.iter xO p k)~0) with (2 * Z.pos (Pos.iter xO p k)).
    rewrite IH. lia.
Qed.

Lemma shr_fexp_exact (m : positive) (e : Z) :
  Z.pos (digits2_pos m) = 53 → -1074 ≤ e →
  shr_fexp 53 1024 (Z.pos m) e loc_Exact
    = ({| shr_m := Z.pos m; shr_r := false; shr_s := false |}, e).
Proof.
  intros Hd He. unfold shr_fexp, fexp, emin.
  cbn [Zdigits2]. rewrite Hd.
  replace (Z.max (53 + e - 53) (3 - 1024 - 53) - e) with 0 by lia.
  reflexivity.
Qed.

Lemma binary_round_aux_exact (s : bool) (m : positive) (e : Z) :
  Z.pos (digits2_pos m) = 53 → -1074 ≤ e ≤ 971 →
  binary_round_aux 53 1024 s (Z.pos m) e loc_Exact
    = S754_finite s m e.
Proof.
  intros Hd He. unfold binary_round_aux.
  rewrite shr_fexp_exact by (done || lia).
  cbn [shr_m loc_of_shr_record round_nearest_even].
  rewrite shr_fexp_exact by (done || lia).
  cbn [shr_m].
  destruct (Z.leb_spec e (1024 - 53)); [done | lia].
Qed.

Lemma digits2_pos_le (p : positive) (k : Z) :
  Z.pos p < 2 ^ k → Z.pos (digits2_pos p) ≤ k.
Proof.
  intros Hp. rewrite digits2_pos_size.
  destruct (Z.le_gt_cases (Z.pos (Pos.size p)) k) as [|Hgt]; [done|].
  assert (0 ≤ k).
  { destruct (Z.le_gt_cases 0 k); [done|]. rewrite Z.pow_neg_r in Hp; lia. }
  pose proof (Pos.size_le p) as Hle.
  apply Pos2Z.pos_le_pos in Hle. rewrite Pos2Z.inj_pow in Hle.
  change (Z.pos p~0) with (2 * Z.pos p) in Hle.
  assert (2 ^ (k + 1) ≤ 2 ^ Z.pos (Pos.size p)) by (apply Z.pow_le_mono_r; lia).
  rewrite Z.pow_add_r in * by lia. lia.
Qed.



(** [float(n)] of a positive int below [2^53] is exact. *)
Lemma of_int_exact (p : positive) :
  Z.pos p < 2 ^ 53 →
  ∃ m e, Float64.of_int (Z.pos p) = Some (S754_finite false m e)
         ∧ Z.pos (digits2_pos m) = 53
         ∧ -52 ≤ e ≤ 0
         ∧ Z.pos m = Z.pos p * 2 ^ (- e).
Proof.
  intros Hp. pose proof (digits2_pos_le p 53 Hp) as Hd.
  unfold Float64.of_int, binary_normalize, binary_round, shl_align, fexp, emin,
    Float64.prec, Float64.emax.
  assert (Hpos : 0 < Z.pos (digits2_pos p)) by lia.
  replace (Z.max (Z.pos (digits2_pos p) + 0 - 53) (3 - 1024 - 53) - 0)
    with (Z.pos (digits2_pos p) - 53) by lia.
  replace (Z.max (Z.pos (digits2_pos p) + 0 - 53) (3 - 1024 - 53))
    with (Z.pos (digits2_pos p) - 53) by lia.
  destruct (Z.pos (digits2_pos p) - 53) as [|k|k] eqn:Hk; [|lia|].
  - exists p, 0.
    rewrite (binary_round_aux_exact false p 0) by lia.
    repeat split; try lia.
  - exists (Pos.iter xO p k), (Z.neg k).
    assert (Hdk : Z.pos (digits2_pos (Pos.iter xO p k)) = 53).
    { rewrite digits2_pos_iter, Pos2Z.inj_add. lia. }
    rewrite (binary_round_aux_exact false _ (Z.neg k)) by (done || lia).
    repeat split; try lia.
    rewrite Zpos_iter. done.
Qed.

(** Multiplying by a power of two that keeps the exponent in range is
    exact. *)
Lemma mul_pow2_exact (s : bool) (m : positive) (e e2 : Z) :
  Z.pos (digits2_pos m) = 53 → -1074 ≤ e + e2 + 52 ≤ 971 →
  Float64.mul (S754_finite s m e) (S754_finite false 4503599627370496 e2)
    = S754_finite s m (e + e2 + 52).
Proof.
  intros Hd He. unfold Float64.mul, Float64.prec, Float64.emax, SFmul.
  rewrite xorb_false_r.
  rewrite <- (binary_round_aux_exact s m (e + e2 + 52)) by (done || lia).
  unfold binary_round_aux.
  rewrite (shr_fexp_exact m (e + e2 + 52)) by (done || lia).
  assert (Hshr : shr_fexp 53 1024
                   (Z.pos (m * 4503599627370496)) (e + e2) loc_Exact
                 = ({| shr_m := Z.pos m; shr_r := false; shr_s := false |},
                    e + e2 + 52)).
  { rewrite Pos.mul_comm. unfold shr_fexp, fexp, emin.
    change (4503599627370496 * m)%positive with (Pos.iter xO m 52).
    cbn [Zdigits2]. rewrite digits2_pos_iter, Pos2Z.inj_add, Hd.
    replace (Z.max (53 + 52 + (e + e2) - 53) (3 - 1024 - 53) - (e + e2))
      with 52 by lia.
    reflexivity. }
  rewrite Hshr. reflexivity.
Qed.






(** *** Line 86 *)


Lemma shiftl_scaled (p m : positive) (e j : Z) :
  e ≤ 0 → 0 ≤ j → Z.pos m = Z.pos p * 2 ^ (- e) →
  Z.shiftl (Z.pos m) (e - j) = Z.pos p / 2 ^ j.
Proof.
  intros He Hj ->.
  replace (e - j) with (- (j - e)) by lia.
  rewrite Z.shiftl_opp_r, Z.shiftr_div_pow2 by lia.
  replace (j - e) with (- e + j) by lia.
  rewrite Z.pow_add_r by lia.
  rewrite (Z.mul_comm (Z.pos p)).
  rewrite Z.div_mul_cancel_l; [done| |]; apply Z.pow_nonzero; lia.
Qed.

(** With a ratio [2^-j] the product is exact. *)
Lemma required_votes_pow2 (n j : Z) :
  0 ≤ n < 2 ^ 53 → 0 ≤ j ≤ 1022 →
  required_votes_binary64 n (Float64.inv_pow2 j) = Some (n / 2 ^ j + 1).
Proof.
  intros Hn Hj. unfold required_votes_binary64.
  destruct n as [|p|p]; [| |lia].
  - cbn. by rewrite Z.div_0_l by (apply Z.pow_nonzero; lia).
  - destruct (of_int_exact p) as (m & e & -> & Hd & He & Hm); [lia|].
    cbn [mbind option_bind]. unfold Float64.inv_pow2.
    rewrite mul_pow2_exact by (done || lia).
    cbn [Float64.to_int mbind option_bind cond_Zopp]. f_equal.
    replace (e + (-52 - j) + 52) with (e - j) by lia.
    rewrite (shiftl_scaled p) by (done || lia).
    assert (0 ≤ Z.pos p / 2 ^ j)
      by (apply Z.div_pos; [lia | apply Z.pow_pos_nonneg; lia]).
    lia.
Qed.







(** The product is rounded before it is truncated: 0.58 * 50 is a float
    just below 29, and 0.7 * 10 is the float 7.  Above [2^53] the count
    itself is rounded. *)
Example quorum_rounds_the_product :
  required_votes_binary64 50 (Float64.decimal 58 100) = Some 29
  ∧ required_votes_binary64 10 (Float64.decimal 7 10) = Some 8
  ∧ required_votes_binary64 90 (Float64.decimal 7 10) = Some 63
  ∧ required_votes_binary64 3 (Float64.decimal 1 2) = Some 2
  ∧ required_votes_binary64 1 (S754_infinity false) = None
  ∧ required_votes_binary64 (2 ^ 53 + 1) Float64.one = Some (2 ^ 53 + 1).
Proof. vm_compute. by repeat split. Qed.

(** The exact product of the rational reading parts from it there. *)
Example exact_product_differs :
  required_votes_of 50 (58 # 100) = 30
  ∧ required_votes_of 10 (7 # 10) = 8
  ∧ required_votes_of 90 (7 # 10) = 64.
Proof. vm_compute. by repeat split. Qed.

(** ** Activity tracker *)

Section Activity.

Context (cfg : settings).

Lemma lookup_foldl_delete (l : list string) (m : gmap string Z) (k : string) :
  foldl (λ m' user, delete user m') m l !! k =
    if decide (k ∈ l) then None else m !! k.
Proof.
  revert m. induction l as [|u l IH]; intros m.
  - destruct (decide (k ∈ [])) as [Hin|Hin]; [|done]. exfalso. set_solver.
  - cbn [foldl]. rewrite IH.
    destruct (decide (k ∈ l)) as [Hl|Hl], (decide (k ∈ u :: l)) as [Hul|Hul];
      try done.
    + exfalso. apply Hul. by right.
    + apply elem_of_cons in Hul as [->|Hul]; [|done].
      by rewrite lookup_delete_eq.
    + rewrite lookup_delete_ne; [done|]. intros ->. apply Hul. by left.
Qed.

Lemma elem_of_inactive_users (cutoff : Z) (m : gmap string Z) (k : string) :
  k ∈ inactive_users cutoff m ↔ ∃ ts, m !! k = Some ts ∧ ts < cutoff.
Proof.
  unfold inactive_users. rewrite list_elem_of_fmap. split.
  - intros [[k' ts] [-> [Hlt Hin]%list_elem_of_filter]].
    apply elem_of_map_to_list in Hin. eauto.
  - intros (ts & Hk & Hlt). exists (k, ts). split; [done|].
    apply list_elem_of_filter. split; [done|]. by apply elem_of_map_to_list.
Qed.

(** The loop [for user in inactive: del ...] removes exactly the stale
    records. *)
Lemma lookup_purge (cutoff : Z) (m : gmap string Z) (k : string) (ts : Z) :
  purge cutoff m !! k = Some ts ↔ m !! k = Some ts ∧ ¬ ts < cutoff.
Proof.
  unfold purge. rewrite lookup_foldl_delete.
  case_decide as Hin.
  - apply elem_of_inactive_users in Hin as (ts' & Hk & Hlt).
    split; [done|]. intros [Hk' Hge]. congruence.
  - split; [|by intros [? ?]]. intros Hk. split; [done|].
    intros Hlt. apply Hin, elem_of_inactive_users. eauto.
Qed.

Lemma purge_idemp (cutoff : Z) (m : gmap string Z) :
  purge cutoff (purge cutoff m) = purge cutoff m.
Proof.
  apply map_eq. intros k. apply option_eq. intros ts.
  rewrite !lookup_purge. tauto.
Qed.

Lemma length_active_users (m : gmap string Z) :
  length (active_users cfg m) = size (dom m ∖ {[BOT_NICK cfg]}).
Proof.
  unfold active_users.
  rewrite <- (size_list_to_set (C := gset string)).
  - f_equal. apply set_eq. intros u.
    rewrite elem_of_list_to_set, list_elem_of_filter, elem_of_difference.
    rewrite elem_of_singleton, elem_of_dom, list_elem_of_fmap.
    split.
    + intros [Hne [[k ts] [-> Hin%elem_of_map_to_list]]]. split; [eauto | done].
    + intros [[ts Hts] Hne]. split; [done|].
      exists (u, ts). split; [done|]. by apply elem_of_map_to_list.
  - apply NoDup_filter, NoDup_fst_map_to_list.
Qed.

(** C8.  A call of [get_active_user_count] at [now] keeps exactly the
    records whose timestamp is not below [now - ACTIVE_DECAY] and touches
    nothing else, returns the number of remaining nicks other than
    [BOT_NICK], and a second call at the same [now] returns the same count
    and leaves the state as the first call left it. *)
Theorem active_count_purges_and_counts (s : InformBot) (now : Z) :
  let n := (get_active_user_count cfg s now).1 in
  let s' := (get_active_user_count cfg s now).2 in
  (∀ user ts, users_last_activity s' !! user = Some ts ↔
      users_last_activity s !! user = Some ts ∧ ¬ ts < now - ACTIVE_DECAY cfg)
  ∧ s' = set_users_last_activity (users_last_activity s') s
  ∧ n = size (dom (users_last_activity s') ∖ {[BOT_NICK cfg]})
  ∧ get_active_user_count cfg s' now = (n, s').
Proof.
  unfold get_active_user_count. simpl.
  split; [|split; [|split]].
  - intros user ts. apply lookup_purge.
  - reflexivity.
  - apply length_active_users.
  - unfold set_users_last_activity. simpl. by rewrite purge_idemp.
Qed.

End Activity.

(** ** Replay buffer *)

Section Replay.

Context (cfg : settings).

Lemma replay_append_drop (buf : list string) (line : string) :
  0 ≤ BUFFERLENGTH cfg →
  Z.of_nat (length buf) ≤ BUFFERLENGTH cfg →
  replay_append cfg line buf =
    drop (length (buf ++ [line]) - Z.to_nat (BUFFERLENGTH cfg)) (buf ++ [line]).
Proof.
  intros HN Hlen. unfold replay_append. cbv zeta.
  rewrite length_app. simpl.
  destruct (Z.ltb_spec (BUFFERLENGTH cfg) (Z.of_nat (length buf + 1))) as [Hlt|Hge].
  - replace (length buf + 1 - Z.to_nat (BUFFERLENGTH cfg))%nat with 1%nat by lia.
    by destruct buf.
  - replace (length buf + 1 - Z.to_nat (BUFFERLENGTH cfg))%nat with 0%nat by lia.
    reflexivity.
Qed.

Lemma appended_drop (lines : list string) :
  0 ≤ BUFFERLENGTH cfg →
  appended cfg [] lines = drop (length lines - Z.to_nat (BUFFERLENGTH cfg)) lines.
Proof.
  intros HN. induction lines as [|line lines IH] using rev_ind; [done|].
  unfold appended in *. rewrite foldl_app. simpl. rewrite IH.
  rewrite replay_append_drop; [|done|rewrite length_drop; lia].
  rewrite <- (drop_app_le lines [line]) by lia.
  rewrite drop_drop, length_drop, length_app. simpl. f_equal. lia.
Qed.

(** C9.  With a capacity [BUFFERLENGTH] that is not negative, the buffer
    that results from appending any sequence of lines to the empty buffer
    is never longer than [BUFFERLENGTH]; it is the sequence without its
    first [k - BUFFERLENGTH] lines, [k] being the number of appends, hence
    after more than [BUFFERLENGTH] appends exactly the last [BUFFERLENGTH]
    lines in the order of their arrival. *)
Theorem replay_buffer_keeps_last_lines (lines : list string) :
  0 ≤ BUFFERLENGTH cfg →
  Z.of_nat (length (appended cfg [] lines)) ≤ BUFFERLENGTH cfg
  ∧ appended cfg [] lines = drop (length lines - Z.to_nat (BUFFERLENGTH cfg)) lines
  ∧ (BUFFERLENGTH cfg < Z.of_nat (length lines) →
     Z.of_nat (length (appended cfg [] lines)) = BUFFERLENGTH cfg).
Proof.
  intros HN. rewrite appended_drop by done. rewrite length_drop.
  split; [lia|]. split; [done|]. lia.
Qed.

(** Every non-empty line that the relay forwards is appended this way. *)
Lemma relay_appends (r : relay_locals) (s : InformBot) (line : string) :
  Py.rstrip_crlf line ≠ "" →
  replay_buffer (_relay_game_output cfg r s (Line line true)).1.2 =
    replay_append cfg (Py.rstrip_crlf line) (replay_buffer s).
Proof.
  intros Hne. unfold _relay_game_output.
  case_bool_decide as Hraw; [by subst line|].
  rewrite bool_decide_eq_false_2 by done.
  destruct (negb (first_line_set r)); [case_bool_decide|]; reflexivity.
Qed.

End Replay.

(** ** A bare [!load] *)

(** C10.  The message [!load], without a trailing space and without an
    argument, makes [on_pubmsg] send nothing and record no vote: the state
    it leaves is the state it found with the sender's activity timestamp
    set to the time of the message. *)
Theorem bare_load_is_ignored (cfg : settings) (s : InformBot) (user : string)
    (now now' : Z) (games : list string) :
  on_pubmsg cfg s user "!load" now now' games =
    (set_users_last_activity (<[user := now]> (users_last_activity s)) s, []).
Proof. reflexivity. Qed.

(** ** The leading choice *)

Lemma max_by_count_first (best : string * nat) (rest : list (string * nat)) :
  ∃ i : nat,
    (best :: rest) !! i = Some (max_by_count best rest)
    ∧ (∀ (j : nat) x, (best :: rest) !! j = Some x →
         (x.2 ≤ (max_by_count best rest).2)%nat)
    ∧ (∀ (j : nat) x, (j < i)%nat → (best :: rest) !! j = Some x →
         (x.2 < (max_by_count best rest).2)%nat).
Proof.
  revert best. induction rest as [|x rest IH]; intros best.
  - exists 0%nat. simpl. split; [done|]. split.
    + intros [|j] y Hy; simplify_eq/=; lia.
    + intros j y Hj. lia.
  - simpl. destruct (Nat.ltb_spec best.2 x.2) as [Hlt|Hge].
    + destruct (IH x) as (i & Hi & Hall & Hbefore).
      pose proof (Hall 0%nat x eq_refl) as Hx.
      exists (S i). split; [done|]. split.
      * intros [|j] y Hy; simplify_eq/=; [lia|]. by eapply Hall.
      * intros [|j] y Hj Hy; simplify_eq/=; [lia|].
        eapply Hbefore; [|done]. lia.
    + destruct (IH best) as (i & Hi & Hall & Hbefore).
      pose proof (Hall 0%nat best eq_refl) as Hb.
      destruct i as [|i].
      * exists 0%nat. split; [done|]. split; [|intros; lia].
        injection Hi as Hi.
        intros [|[|j]] y Hy; simplify_eq/=; [lia|lia|].
        by apply (Hall (S j)).
      * exists (S (S i)). split; [done|].
        pose proof (Hbefore 0%nat best ltac:(lia) eq_refl) as Hb'.
        split.
        -- intros [|[|j]] y Hy; simplify_eq/=; [lia|lia|].
           by apply (Hall (S j)).
        -- intros [|[|j]] y Hj Hy; simplify_eq/=; [lia|lia|].
           apply (Hbefore (S j)); [lia|done].
Qed.

(** Buckets keep their place: a vote changes a bucket where it stands, and
    a new choice gets its bucket after all the others. *)
Lemma dd_update_keys (f : gset string → gset string) (k : string) (d : tally) :
  (dd_update f k d).*1 = if decide (k ∈ d.*1) then d.*1 else (d.*1 ++ [k])%list.
Proof.
  induction d as [|[k' users] d IH].
  - reflexivity.
  - cbn [dd_update]. rewrite !fmap_cons. cbn [fst].
    destruct (decide (k' = k)) as [->|Hne]; rewrite ?fmap_cons; cbn [fst].
    + destruct (decide (k ∈ k :: d.*1)) as [_|Hout]; [done|].
      exfalso. apply Hout. by left.
    + rewrite IH.
      destruct (decide (k ∈ d.*1)) as [Hin|Hout],
               (decide (k ∈ k' :: d.*1)) as [Hin'|Hout']; try done.
      * exfalso. apply Hout'. by right.
      * apply elem_of_cons in Hin' as [->|Hin']; done.
Qed.

(** C7.  On a tally that has a bucket, [most_common(1)[0]] of its counts
    always yields a choice; this choice has the maximal count, and every
    bucket that stands before it, that is, every bucket created before its
    own, has a strictly smaller count.  Among the choices tied for the
    maximum it is the one whose bucket was created first, because casting
    a vote leaves the buckets that exist in their order. *)
Theorem tie_goes_to_earliest_bucket (d : tally) :
  d ≠ [] →
  (∃ top (n i : nat) users,
      most_common1 (vote_counts d) = Some (top, n)
      ∧ d !! i = Some (top, users) ∧ size users = n
      ∧ (∀ (j : nat) b, d !! j = Some b → (size b.2 ≤ n)%nat)
      ∧ (∀ (j : nat) b, (j < i)%nat → d !! j = Some b → (size b.2 < n)%nat))
  ∧ (∀ f k, d.*1 `prefix_of` (dd_update f k d).*1).
Proof.
  intros Hne. split.
  - destruct d as [|b d]; [done|]. simpl.
    destruct (max_by_count_first (b.1, size b.2) (vote_counts d))
      as (i & Hi & Hall & Hbefore).
    destruct (max_by_count (b.1, size b.2) (vote_counts d)) as [top n] eqn:Hmax.
    change ((b.1, size b.2) :: vote_counts d) with (vote_counts (b :: d)) in *.
    unfold vote_counts in Hi, Hall, Hbefore.
    rewrite list_lookup_fmap in Hi.
    destruct ((b :: d) !! i) as [[top' users]|] eqn:Hd; simplify_eq/=.
    exists top, (size users), i, users. repeat split; try done.
    + intros j b' Hj.
      change (((b'.1, size b'.2).2 ≤ size users)%nat). apply (Hall j).
      change (vote_counts (b :: d) !! j = Some (b'.1, size b'.2)).
      unfold vote_counts. by rewrite list_lookup_fmap, Hj.
    + intros j b' Hlt Hj.
      change (((b'.1, size b'.2).2 < size users)%nat).
      apply (Hbefore j); [done|].
      change (vote_counts (b :: d) !! j = Some (b'.1, size b'.2)).
      unfold vote_counts. by rewrite list_lookup_fmap, Hj.
  - intros f k. rewrite dd_update_keys. case_decide; [done|].
    by apply prefix_app_r.
Qed.

(** ** Resolution of a ballot on a tick *)

Section Resolution.

Context (cfg : settings).

(** The case analysis of an iteration on the guards of its body;
    hypothesis [Hres] tells which resolution is performed. *)
Ltac tick_cases Hres :=
  unfold tick_required_votes, _vote_loop, get_required_votes,
    get_active_user_count;
  cbv zeta; cbn [fst snd];
  set (req := required_votes_of _ _); clearbody req;
  match goal with
  | st : InformBot |- _ => destruct st
  end;
  unfold resolution in Hres;
  cbn [game_votes load_vote_start stopgame_vote_start game stopgame_voters
       command_vote_start votes] in Hres;
  unfold set_users_last_activity; cbn -[purge due most_common1];
  unfold load_phase, stopgame_phase, session_phase, command_phase;
  cbn -[purge due most_common1];
  repeat match type of Hres with
    | context [due cfg ?a ?b] => destruct (due cfg a b)
    | context [bool_decide (?x ≠ [])] => is_var x; destruct x
    | context [bool_decide (is_Some ?x)] => is_var x; destruct x
    | context [bool_decide (?x ≠ ∅)] => destruct (bool_decide (x ≠ ∅))
    end;
  cbn -[max_by_count] in Hres; try discriminate Hres;
  cbn -[max_by_count];
  repeat match goal with
    | |- context [max_by_count ?x ?l] => destruct (max_by_count x l)
    | H : context [max_by_count ?x ?l] |- _ => destruct (max_by_count x l)
    end.

(** C1.  When an iteration of [_vote_loop] resolves a ballot (load, stop
    or command), the calls it makes into the game process are exactly the
    action of that category for the leading choice if the leading count
    reaches the quorum computed by this iteration, and none if it does
    not; in both cases the resolved ballot ends the iteration with its
    choice map and its tally empty and its start time [None]. *)
Theorem resolution_dispatches_once_and_clears (s : InformBot) (now t1 t2 : Z)
    (c : category) (choice : string) (count : nat) :
  resolution cfg s now = Some (c, choice, count) →
  game_calls (_vote_loop cfg s now t1 t2).2 =
    (if tick_required_votes cfg s t1 t2 <=? Z.of_nat count
     then dispatch cfg c s choice else [])
  ∧ ballot_cleared c (_vote_loop cfg s now t1 t2).1.
Proof.
  intros Hres. tick_cases Hres;
    cbn in Hres; injection Hres as <- <- <-;
    destruct (_ <=? Z.of_nat _); cbn; auto.
Qed.

(** What a resolution does to the other two ballots: a load or a stop
    resolution empties the maps of the other ballots and leaves their
    start times as they were; a command resolution leaves the other
    ballots alone. *)
Lemma resolution_and_other_ballots (s : InformBot) (now t1 t2 : Z)
    (c : category) (choice : string) (count : nat) :
  resolution cfg s now = Some (c, choice, count) →
  let s' := (_vote_loop cfg s now t1 t2).1 in
  match c with
  | LoadGame =>
      votes s' = [] ∧ voter_choices s' = ∅ ∧ stopgame_voters s' = ∅
      ∧ command_vote_start s' = command_vote_start s
      ∧ stopgame_vote_start s' = stopgame_vote_start s
  | StopGame =>
      votes s' = [] ∧ voter_choices s' = ∅
      ∧ game_votes s' = [] ∧ game_voter_choices s' = ∅
      ∧ command_vote_start s' = command_vote_start s
      ∧ load_vote_start s' = load_vote_start s
  | Command =>
      game_votes s' = game_votes s
      ∧ game_voter_choices s' = game_voter_choices s
      ∧ stopgame_voters s' = stopgame_voters s
      ∧ load_vote_start s' = load_vote_start s
      ∧ stopgame_vote_start s' = stopgame_vote_start s
  end.
Proof.
  intros Hres. tick_cases Hres;
    cbn in Hres; injection Hres as <- <- <-;
    destruct (_ <=? Z.of_nat _); cbn; auto 10.
Qed.

(** An iteration that resolves nothing calls nothing.  It leaves the
    three ballots as they are, except that without a game it empties the
    maps of the command ballot; the start time of the command ballot stays
    as it is in this case too. *)
Lemma iteration_without_resolution (s : InformBot) (now t1 t2 : Z) :
  resolution cfg s now = None →
  let s' := (_vote_loop cfg s now t1 t2).1 in
  (_vote_loop cfg s now t1 t2).2 = []
  ∧ game s' = game s
  ∧ game_votes s' = game_votes s
  ∧ game_voter_choices s' = game_voter_choices s
  ∧ stopgame_voters s' = stopgame_voters s
  ∧ load_vote_start s' = load_vote_start s
  ∧ stopgame_vote_start s' = stopgame_vote_start s
  ∧ command_vote_start s' = command_vote_start s
  ∧ match game s with
    | None => votes s' = [] ∧ voter_choices s' = ∅
    | Some _ => votes s' = votes s ∧ voter_choices s' = voter_choices s
    end.
Proof.
  intros Hres. tick_cases Hres; cbn; auto 12.
Qed.

(** The choice that a resolution acts on is the one that
    [most_common(1)] puts first. *)
Lemma resolution_choice_leads (s : InformBot) (now : Z) (choice : string)
    (count : nat) :
  (resolution cfg s now = Some (LoadGame, choice, count) →
   most_common1 (vote_counts (game_votes s)) = Some (choice, count))
  ∧ (resolution cfg s now = Some (Command, choice, count) →
     most_common1 (vote_counts (votes s)) = Some (choice, count)).
Proof.
  unfold resolution. split; intros Hres;
    repeat match type of Hres with
      | (if ?b then _ else _) = _ => destruct b; try discriminate Hres
      end;
    match type of Hres with
    | _ <$> ?o = _ => destruct o as [[top n]|]
    end; cbn in Hres; congruence.
Qed.

End Resolution.

(** ** Ballots: every vote is counted once *)

Lemma bucket_dd_update (f : gset string → gset string) (k0 k : string) (d : tally) :
  bucket k (dd_update f k0 d) =
    if decide (k = k0) then f (bucket k0 d) else bucket k d.
Proof.
  induction d as [|[k' users] d IH]; cbn [dd_update bucket].
  - destruct (decide (k = k0)) as [Heq|Hne], (decide (k0 = k)) as [Heq'|Hne'];
      congruence.
  - destruct (decide (k' = k0)) as [Hk'|Hk']; cbn [bucket].
    + destruct (decide (k = k0)) as [Heq|Hne], (decide (k' = k)) as [Heq'|Hne'];
        congruence.
    + rewrite IH.
      destruct (decide (k = k0)) as [Heq|Hne], (decide (k' = k)) as [Heq'|Hne'];
        congruence.
Qed.

Lemma bucket_no_key (k : string) (d : tally) : k ∉ d.*1 → bucket k d = ∅.
Proof.
  induction d as [|[k' users] d IH]; [done|].
  rewrite fmap_cons, not_elem_of_cons. cbn [fst bucket]. intros [Hne Hout].
  destruct (decide (k' = k)); [congruence | auto].
Qed.

Lemma NoDup_dd_update (f : gset string → gset string) (k : string) (d : tally) :
  NoDup d.*1 → NoDup (dd_update f k d).*1.
Proof.
  intros Hd. rewrite dd_update_keys. case_decide as Hin; [done|].
  apply NoDup_app. split; [done|]. split; [|apply NoDup_singleton].
  intros x Hx ->%list_elem_of_singleton. done.
Qed.

Lemma tally_consistent_empty : tally_consistent ∅ [].
Proof.
  split; [constructor|]. intros user k. cbn [bucket].
  rewrite lookup_empty. split; [|done]. intros []%not_elem_of_empty.
Qed.

(** Lines 142-144: the retracted vote is counted nowhere. *)
Lemma tally_consistent_retract (user : string) (choices : gmap string string) (d : tally) :
  tally_consistent choices d →
  tally_consistent (delete user choices) (retract_vote user choices d).
Proof.
  intros [Hnd Hd]. unfold retract_vote, dd_discard.
  destruct (choices !! user) as [old|] eqn:Hold.
  - split; [by apply NoDup_dd_update|]. intros u k.
    rewrite bucket_dd_update.
    destruct (decide (u = user)) as [->|Hu].
    + rewrite lookup_delete_eq. split; [|done].
      case_decide as Hk.
      * rewrite elem_of_difference, elem_of_singleton. tauto.
      * intros Hin%Hd. congruence.
    + rewrite lookup_delete_ne by done. rewrite <- Hd.
      case_decide as Hk; [subst k|done].
      rewrite elem_of_difference, elem_of_singleton. tauto.
  - split; [done|]. intros u k. rewrite Hd.
    destruct (decide (u = user)) as [->|Hu].
    + rewrite lookup_delete_eq, Hold. done.
    + by rewrite lookup_delete_ne.
Qed.

(** Lines 147-148. *)
Lemma tally_consistent_record (user choice : string) (choices : gmap string string)
    (d : tally) :
  tally_consistent choices d →
  choices !! user = None →
  tally_consistent (record_vote user choice choices d).1
                   (record_vote user choice choices d).2.
Proof.
  intros [Hnd Hd] Hnone. unfold record_vote, dd_add. cbn [fst snd].
  split; [by apply NoDup_dd_update|]. intros u k.
  rewrite bucket_dd_update.
  destruct (decide (u = user)) as [->|Hu].
  - rewrite lookup_insert_eq. case_decide as Hk.
    + subst k. rewrite elem_of_union, elem_of_singleton. tauto.
    + rewrite Hd, Hnone. split; [done | congruence].
  - rewrite lookup_insert_ne by done. rewrite <- Hd.
    case_decide as Hk; [subst k|done].
    rewrite elem_of_union, elem_of_singleton. tauto.
Qed.

Lemma tally_consistent_cast (user choice : string) (choices : gmap string string)
    (d : tally) :
  tally_consistent choices d →
  tally_consistent (cast_vote user choice choices d).1
                   (cast_vote user choice choices d).2.
Proof.
  intros Hc. unfold cast_vote.
  pose proof (tally_consistent_record user choice _ _
    (tally_consistent_retract user _ _ Hc) (lookup_delete_eq _ _)) as Hr.
  unfold record_vote in *. cbn [fst snd] in *.
  by rewrite insert_delete_eq in Hr.
Qed.

Lemma filter_bucket_cons (user k : string) (users : gset string) (d : tally)
    (l : list string) :
  k ∉ l →
  filter (λ k0, user ∈ bucket k0 ((k, users) :: d)) l =
    filter (λ k0, user ∈ bucket k0 d) l.
Proof.
  induction l as [|k1 l IHl]; [done|].
  intros [Hne Hl]%not_elem_of_cons. rewrite !filter_cons, IHl by done.
  destruct (decide (user ∈ bucket k1 ((k, users) :: d))) as [H1|H1],
           (decide (user ∈ bucket k1 d)) as [H2|H2];
    cbn [bucket] in H1; destruct (decide (k = k1)); congruence.
Qed.

Lemma buckets_of_keys (user : string) (d : tally) :
  NoDup d.*1 →
  buckets_of user d = filter (λ k, user ∈ bucket k d) d.*1.
Proof.
  unfold buckets_of. induction d as [|[k users] d IH]; [done|].
  rewrite fmap_cons. cbn [fst]. intros [Hk Hd]%NoDup_cons.
  rewrite !filter_cons, filter_bucket_cons, <- IH by done.
  cbn [bucket snd]. destruct (decide (k = k)); [|done].
  by destruct (decide (user ∈ users)).
Qed.

Lemma filter_eq_NoDup (k : string) (l : list string) :
  NoDup l → k ∈ l → filter (λ x, x = k) l = [k].
Proof.
  induction l as [|x l IH]; intros Hnd Hin; [by apply elem_of_nil in Hin|].
  apply NoDup_cons in Hnd as [Hx Hnd]. rewrite filter_cons.
  destruct (decide (x = k)) as [->|Hne].
  - f_equal. clear IH Hin Hnd. induction l as [|y l IHl]; [done|].
    apply not_elem_of_cons in Hx as [Hne Hl]. rewrite filter_cons.
    destruct (decide (y = k)); [congruence | auto].
  - apply IH; [done|]. by apply elem_of_cons in Hin as [->|Hin].
Qed.

Lemma filter_none (P : string → Prop) `{∀ x, Decision (P x)} (l : list string) :
  (∀ x, x ∈ l → ¬ P x) → filter P l = [].
Proof.
  induction l as [|x l IH]; intros Hl; [done|].
  rewrite filter_cons. destruct (decide (P x)) as [HP|_].
  - exfalso. apply (Hl x); [by left | done].
  - apply IH. intros y Hy. apply Hl. by right.
Qed.

Lemma buckets_of_choice (user k : string) (choices : gmap string string) (d : tally) :
  tally_consistent choices d →
  choices !! user = Some k →
  buckets_of user d = [k].
Proof.
  intros [Hnd Hd] Hk. rewrite buckets_of_keys by done.
  assert (Hin : k ∈ d.*1).
  { destruct (decide (k ∈ d.*1)) as [|Hout]; [done|].
    apply Hd in Hk. rewrite bucket_no_key in Hk by done.
    by apply not_elem_of_empty in Hk. }
  rewrite <- (filter_eq_NoDup k d.*1) by done.
  apply list_filter_iff. intros k'. rewrite Hd. split; congruence.
Qed.

Lemma buckets_of_no_choice (user : string) (choices : gmap string string) (d : tally) :
  tally_consistent choices d →
  choices !! user = None →
  buckets_of user d = [].
Proof.
  intros [Hnd Hd] Hk. rewrite buckets_of_keys by done.
  apply filter_none. intros k' _. rewrite Hd. congruence.
Qed.

(** ** Invariants of the reachable states *)

Section Reachable.

Context (cfg : settings).

Ltac case_branch :=
  match goal with
  | |- context [bool_decide ?P] => destruct (bool_decide P)
  | |- context [Py.startswith ?a ?b] => destruct (Py.startswith a b)
  | |- context [due cfg ?a ?b] => destruct (due cfg a b)
  | |- context [?a <=? ?b] => destruct (a <=? b)
  | |- context [match game ?s with _ => _ end] => destruct (game s)
  | |- context [match replay_buffer ?s with _ => _ end] => destruct (replay_buffer s)
  | |- context [match vote_status ?c ?s ?n with _ => _ end] => destruct (vote_status c s n)
  | |- context [match votes ?s with _ => _ end] => destruct (votes s) eqn:?
  | |- context [match game_votes ?s with _ => _ end] => destruct (game_votes s) eqn:?
  | |- context [match most_common1 ?c with _ => _ end] => destruct (most_common1 c) as [[? ?]|]
  end.

Lemma on_pubmsg_inv (s : InformBot) (user raw : string) (now now' : Z)
    (games : list string) :
  bot_inv s → bot_inv (on_pubmsg cfg s user raw now now' games).1.
Proof.
  intros [Hc Hg]. unfold on_pubmsg. cbv zeta.
  pose proof (tally_consistent_cast user (Py.strip (Py.slice_from 6 (Py.strip raw)))
                _ _ Hg) as Hg'.
  pose proof (tally_consistent_cast user (Py.strip (Py.slice_from 5 (Py.strip raw)))
                _ _ Hc) as Hc'.
  unfold _handle_status, get_required_votes, get_active_user_count. cbv zeta.
  repeat case_branch; cbn [fst snd]; split; assumption.
Qed.

Lemma _vote_loop_inv (s : InformBot) (now t1 t2 : Z) :
  bot_inv s → bot_inv (_vote_loop cfg s now t1 t2).1.
Proof.
  intros [Hc Hg]. pose proof tally_consistent_empty as He.
  unfold _vote_loop, get_required_votes, get_active_user_count. cbv zeta.
  set (req := required_votes_of _ _). clearbody req.
  set (s1 := set_users_last_activity _ (set_users_last_activity _ s)).
  assert (Hc1 : tally_consistent (voter_choices s1) (votes s1)) by exact Hc.
  assert (Hg1 : tally_consistent (game_voter_choices s1) (game_votes s1))
    by exact Hg.
  clearbody s1. clear Hc Hg.
  destruct s1 as [g gn vc v gv gvc sv rb ula cs ls ss].
  cbn [voter_choices votes game_voter_choices game_votes] in Hc1, Hg1.
  unfold load_phase, stopgame_phase, session_phase, command_phase, load_game.
  cbn [game votes game_votes load_vote_start stopgame_vote_start
       command_vote_start stopgame_voters].
  destruct (due cfg ls now), gv as [|b gv], (due cfg ss now), g as [p|],
    (bool_decide (sv ≠ ∅)), (due cfg cs now), v as [|b' v];
    cbn [most_common1 vote_counts fmap list_fmap];
    repeat match goal with
      | |- context [max_by_count ?x ?l] => destruct (max_by_count x l) as [top n]
      end;
    try destruct (req <=? Z.of_nat _);
    split; assumption.
Qed.

Lemma _relay_game_output_inv (r : relay_locals) (s : InformBot) (x : reading) :
  bot_inv s → bot_inv (_relay_game_output cfg r s x).1.2.
Proof.
  intros [Hc Hg]. unfold _relay_game_output. cbv zeta.
  destruct x as [|line []]; [by split|..];
    destruct (first_line_set r); cbn [negb];
    repeat case_branch; cbn [fst snd]; split; assumption.
Qed.

Lemma step_inv (s : InformBot) (i : input) :
  bot_inv s → bot_inv (step cfg s i).1.
Proof.
  intros Hs. destruct i as [user raw now now' games|now t1 t2|r x]; cbn [step].
  - by apply on_pubmsg_inv.
  - by apply _vote_loop_inv.
  - pose proof (_relay_game_output_inv r s x Hs) as Hr.
    by destruct (_relay_game_output cfg r s x) as [[r' s'] evs].
Qed.

Lemma run_snoc (s : InformBot) (inputs : list input) (i : input) :
  run cfg s (inputs ++ [i]) = (step cfg (run cfg s inputs) i).1.
Proof. unfold run. by rewrite foldl_app. Qed.

Lemma reachable_inv (s : InformBot) : reachable cfg s → bot_inv s.
Proof.
  intros [inputs <-].
  induction inputs as [|i inputs IH] using rev_ind.
  - split; apply tally_consistent_empty.
  - rewrite run_snoc. by apply step_inv.
Qed.

(** C6.  In every state that the bot reaches from its initial state by
    messages, ticks and relayed lines, for the command ballot and for the
    load ballot: a nick with a recorded choice is counted in the bucket of
    that choice and in no other; the first step of casting a vote leaves
    the nick counted in no bucket, whatever it chose before; and after the
    whole cast the nick is counted in the bucket of the new choice alone.
    Buckets are sets, so none counts a nick twice. *)
Theorem votes_counted_once (s : InformBot) (user choice : string) :
  reachable cfg s →
  (∀ k, voter_choices s !! user = Some k → buckets_of user (votes s) = [k])
  ∧ (∀ k, game_voter_choices s !! user = Some k →
       buckets_of user (game_votes s) = [k])
  ∧ buckets_of user (retract_vote user (voter_choices s) (votes s)) = []
  ∧ buckets_of user (retract_vote user (game_voter_choices s) (game_votes s)) = []
  ∧ buckets_of user (cast_vote user choice (voter_choices s) (votes s)).2 = [choice]
  ∧ buckets_of user (cast_vote user choice (game_voter_choices s) (game_votes s)).2
    = [choice].
Proof.
  intros [Hc Hg]%reachable_inv.
  split; [|split; [|split; [|split; [|split]]]].
  - intros k Hk. by eapply buckets_of_choice.
  - intros k Hk. by eapply buckets_of_choice.
  - eapply buckets_of_no_choice; [by apply tally_consistent_retract|].
    apply lookup_delete_eq.
  - eapply buckets_of_no_choice; [by apply tally_consistent_retract|].
    apply lookup_delete_eq.
  - eapply buckets_of_choice; [by apply tally_consistent_cast|].
    apply lookup_insert_eq.
  - eapply buckets_of_choice; [by apply tally_consistent_cast|].
    apply lookup_insert_eq.
Qed.

(** The converse half of the start-time invariant holds: the start time
    of a ballot is set as long as the ballot holds a vote. *)
Lemma start_if_unset_is_Some (start : option Z) (now : Z) :
  is_Some (start_if_unset start now).
Proof.
  unfold start_if_unset. destruct start as [t|]; [|by eexists].
  destruct (Py.truthy (Some t)); by eexists.
Qed.

Ltac solve_timers :=
  cbn [fst snd voter_choices game_voter_choices stopgame_voters
       command_vote_start load_vote_start stopgame_vote_start
       set_game set_gamename set_voter_choices set_votes set_game_votes
       set_game_voter_choices set_stopgame_voters set_replay_buffer
       set_users_last_activity set_command_vote_start set_load_vote_start
       set_stopgame_vote_start clear_all_votes];
  repeat split;
  first [ assumption
        | left; reflexivity
        | right; apply start_if_unset_is_Some ].

Lemma on_pubmsg_timers (s : InformBot) (user raw : string) (now now' : Z)
    (games : list string) :
  timers_cover_votes s →
  timers_cover_votes (on_pubmsg cfg s user raw now now' games).1.
Proof.
  intros (Hc & Hg & Hs). unfold on_pubmsg. cbv zeta.
  unfold _handle_status, get_required_votes, get_active_user_count,
    cast_vote, record_vote.
  cbv zeta.
  repeat case_branch; unfold timers_cover_votes; solve_timers.
Qed.

Lemma _vote_loop_timers (s : InformBot) (now t1 t2 : Z) :
  timers_cover_votes s → timers_cover_votes (_vote_loop cfg s now t1 t2).1.
Proof.
  intros (Hc & Hg & Hs).
  unfold _vote_loop, get_required_votes, get_active_user_count. cbv zeta.
  set (req := required_votes_of _ _). clearbody req.
  set (s1 := set_users_last_activity _ (set_users_last_activity _ s)).
  assert (Hc1 : voter_choices s1 = ∅ ∨ is_Some (command_vote_start s1))
    by exact Hc.
  assert (Hg1 : game_voter_choices s1 = ∅ ∨ is_Some (load_vote_start s1))
    by exact Hg.
  assert (Hs1 : stopgame_voters s1 = ∅ ∨ is_Some (stopgame_vote_start s1))
    by exact Hs.
  clearbody s1. clear Hc Hg Hs.
  destruct s1 as [g gn vc v gv gvc sv rb ula cs ls ss].
  cbn [voter_choices game_voter_choices stopgame_voters command_vote_start
       load_vote_start stopgame_vote_start] in Hc1, Hg1, Hs1.
  unfold load_phase, stopgame_phase, session_phase, command_phase, load_game.
  cbn [game votes game_votes load_vote_start stopgame_vote_start
       command_vote_start stopgame_voters].
  destruct (due cfg ls now), gv as [|b gv], (due cfg ss now), g as [p|],
    (bool_decide (sv ≠ ∅)), (due cfg cs now), v as [|b' v];
    cbn [most_common1 vote_counts fmap list_fmap];
    repeat match goal with
      | |- context [max_by_count ?x ?l] => destruct (max_by_count x l) as [top n]
      end;
    try destruct (req <=? Z.of_nat _);
    unfold timers_cover_votes; solve_timers.
Qed.

Lemma _relay_game_output_timers (r : relay_locals) (s : InformBot) (x : reading) :
  timers_cover_votes s →
  timers_cover_votes (_relay_game_output cfg r s x).1.2.
Proof.
  intros (Hc & Hg & Hs). unfold _relay_game_output. cbv zeta.
  destruct x as [|line []]; [by repeat split|..];
    destruct (first_line_set r); cbn [negb];
    repeat case_branch; unfold timers_cover_votes; solve_timers.
Qed.

Lemma reachable_timers (s : InformBot) :
  reachable cfg s → timers_cover_votes s.
Proof.
  intros [inputs <-].
  induction inputs as [|i inputs IH] using rev_ind.
  - repeat split; by left.
  - rewrite run_snoc.
    destruct i as [user raw now now' games|now t1 t2|r x]; cbn [step].
    + by apply on_pubmsg_timers.
    + by apply _vote_loop_timers.
    + pose proof (_relay_game_output_timers r _ x IH) as Hr.
      by destruct (_relay_game_output cfg r _ x) as [[r' s'] evs].
Qed.

(** The replay buffer of a reachable state is within its capacity. *)
Lemma replay_append_length (line : string) (buf : list string) :
  0 ≤ BUFFERLENGTH cfg →
  Z.of_nat (length buf) ≤ BUFFERLENGTH cfg →
  Z.of_nat (length (replay_append cfg line buf)) ≤ BUFFERLENGTH cfg.
Proof.
  intros HN Hlen. rewrite replay_append_drop by done.
  rewrite length_drop, length_app. simpl. lia.
Qed.

Lemma reachable_replay_bounded (s : InformBot) :
  0 ≤ BUFFERLENGTH cfg →
  reachable cfg s →
  Z.of_nat (length (replay_buffer s)) ≤ BUFFERLENGTH cfg.
Proof.
  intros HN [inputs <-].
  induction inputs as [|i inputs IH] using rev_ind; [simpl; lia|].
  rewrite run_snoc. set (s := run cfg init inputs) in *. clearbody s.
  destruct i as [user raw now now' games|now t1 t2|r [|line sent]]; cbn [step].
  - assert (Hsame : replay_buffer (on_pubmsg cfg s user raw now now' games).1
                    = replay_buffer s); [|by rewrite Hsame].
    unfold on_pubmsg. cbv zeta.
    unfold _handle_status, get_required_votes, get_active_user_count,
      cast_vote, record_vote.
    cbv zeta. repeat case_branch; reflexivity.
  - assert (Hsame : replay_buffer (_vote_loop cfg s now t1 t2).1
                    = replay_buffer s); [|by rewrite Hsame].
    unfold _vote_loop, get_required_votes, get_active_user_count. cbv zeta.
    unfold load_phase, stopgame_phase, session_phase, command_phase, load_game.
    repeat case_branch; reflexivity.
  - done.
  - unfold _relay_game_output. cbv zeta.
    destruct sent; destruct (first_line_set r); cbn [negb];
      repeat case_branch; cbn [fst snd replay_buffer set_replay_buffer set_gamename];
      try done; by apply replay_append_length.
Qed.

End Reachable.

(** ** Worked runs under [example_settings] *)

Example tie_is_not_alphabetical :
  most_common1 (vote_counts tied_tally) = Some ("south", 1%nat).
Proof. vm_compute. reflexivity. Qed.

Example tie_resolves_to_first_choice :
  (_vote_loop quarter_settings (run quarter_settings init run_before_tie)
     170 170 170).2
  = [GameSend "south"; Privmsg "#if" "> south"].
Proof. vm_compute. reflexivity. Qed.

Example scenario_majority_command :
  let s := run example_settings init run_before_command in
  tick_required_votes example_settings s 170 170 = 2
  ∧ (_vote_loop example_settings s 170 170 170).2
    = [GameSend "north"; Privmsg "#if" "> north"]
  ∧ votes (_vote_loop example_settings s 170 170 170).1 = []
  ∧ command_vote_start (_vote_loop example_settings s 170 170 170).1 = None.
Proof. vm_compute. repeat split. Qed.

Example scenario_no_game_vote :
  on_pubmsg example_settings init "alice" "!vote go" 100 100 []
  = (set_users_last_activity {["alice" := 100]} init,
     [Privmsg "#if"
        "No game loaded. Vote to load a game first using: !load <gamefile>"]).
Proof. vm_compute. reflexivity. Qed.

Example scenario_unknown_game :
  on_pubmsg example_settings init "alice" "!load zork1" 100 100 games_dir
  = (set_users_last_activity {["alice" := 100]} init,
     [Privmsg "#if" "alice: game 'zork1' not found."]).
Proof. vm_compute. reflexivity. Qed.

Example scenario_replay_l1_l7 :
  appended example_settings [] ["L1"; "L2"; "L3"; "L4"; "L5"; "L6"; "L7"]
  = ["L3"; "L4"; "L5"; "L6"; "L7"].
Proof. reflexivity. Qed.

(** ** Timers after a clearing of another ballot *)

(** C2.  At second 165 of [run_before_load] the load vote resolves and
    loads advent.  The iteration empties the command ballot and the stop
    ballot, and it ends without evaluating them, but it leaves both their
    start times as they were: the timers started at 140 and 141 keep
    running over empty ballots. *)
Theorem load_resolution_keeps_other_timers :
  let tick := _vote_loop example_settings state_before_load 165 165 165 in
  resolution example_settings state_before_load 165
    = Some (LoadGame, "advent", 2%nat)
  ∧ game_calls tick.2 = [GameStop; GameStart "games/advent"]
  ∧ votes tick.1 = [] ∧ voter_choices tick.1 = ∅
  ∧ stopgame_voters tick.1 = ∅
  ∧ command_vote_start tick.1 = Some 140
  ∧ stopgame_vote_start tick.1 = Some 141.
Proof. vm_compute. repeat split. Qed.

(** What the stale timer does next: dave votes a command at second 169
    and the vote is resolved, and lost for lack of quorum, one second
    later. *)
Example stale_timer_resolves_early :
  let s := run example_settings init
             (run_before_load
              ++ Tick 165 165 165 :: ticks 166 3
              ++ [Message "dave" "!vote south" 169 169 []; Tick 169 169 169])%list in
  command_vote_start s = Some 140
  ∧ (_vote_loop example_settings s 170 170 170).2
    = [Privmsg "#if" "No majority for command. Votes cleared."].
Proof. vm_compute. repeat split. Qed.

(** C5.  At second 169 of [run_before_stop] the stop vote resolves and the
    game is stopped.  In the iteration at second 170 no game is loaded
    and neither the load vote nor the stop vote resolves; the iteration
    leaves the command ballot empty but its start time at 141. *)
Theorem no_session_keeps_command_timer :
  let tick := _vote_loop example_settings state_after_stop 170 170 170 in
  game state_after_stop = None
  ∧ resolution example_settings state_after_stop 170 = None
  ∧ votes tick.1 = [] ∧ voter_choices tick.1 = ∅
  ∧ command_vote_start tick.1 = Some 141.
Proof. vm_compute. repeat split. Qed.

(** C3.  [state_after_stop] is reached from the initial state by messages
    and ticks; its command ballot has an empty choice map and a start time
    that is set; and the stop resolution that cleared the ballot left the
    start time as it was. *)
Theorem start_time_set_on_empty_ballot :
  reachable example_settings state_after_stop
  ∧ voter_choices state_after_stop = ∅
  ∧ votes state_after_stop = []
  ∧ command_vote_start state_after_stop = Some 141
  ∧ voter_choices state_before_stop = {["bob" := "north"]}
  ∧ command_vote_start state_before_stop = Some 141.
Proof.
  split.
  - exists (run_before_stop ++ [Tick 169 169 169])%list.
    unfold state_after_stop. reflexivity.
  - vm_compute. repeat split.
Qed.

(** ** The theorems at concrete inputs *)

Lemma resolution_dispatches_once_and_clears_witness :
  resolution example_settings state_before_load 165
    = Some (LoadGame, "advent", 2%nat)
  ∧ game_calls (_vote_loop example_settings state_before_load 165 165 165).2 =
      (if tick_required_votes example_settings state_before_load 165 165
            <=? Z.of_nat 2
       then dispatch example_settings LoadGame state_before_load "advent"
       else [])
  ∧ ballot_cleared LoadGame
      (_vote_loop example_settings state_before_load 165 165 165).1.
Proof.
  assert (H : resolution example_settings state_before_load 165
              = Some (LoadGame, "advent", 2%nat)) by (vm_compute; reflexivity).
  split; [exact H|].
  exact (resolution_dispatches_once_and_clears example_settings
           state_before_load 165 165 165 LoadGame "advent" 2%nat H).
Defined.


Lemma votes_counted_once_witness :
  reachable example_settings state_before_stop
  ∧ buckets_of "bob" (votes state_before_stop) = ["north"]
  ∧ buckets_of "bob"
      (cast_vote "bob" "south" (voter_choices state_before_stop)
         (votes state_before_stop)).2 = ["south"].
Proof.
  assert (H : reachable example_settings state_before_stop).
  { exists run_before_stop. unfold state_before_stop. reflexivity. }
  pose proof (votes_counted_once example_settings state_before_stop
                "bob" "south" H) as (Hc & _ & _ & _ & Hcast & _).
  split; [exact H|]. split; [|exact Hcast].
  apply Hc. vm_compute. reflexivity.
Defined.

Lemma tie_goes_to_earliest_bucket_witness :
  tied_tally ≠ []
  ∧ ∃ top (n i : nat) users,
      most_common1 (vote_counts tied_tally) = Some (top, n)
      ∧ tied_tally !! i = Some (top, users) ∧ size users = n
      ∧ (∀ (j : nat) b, tied_tally !! j = Some b → (size b.2 ≤ n)%nat)
      ∧ (∀ (j : nat) b, (j < i)%nat → tied_tally !! j = Some b →
           (size b.2 < n)%nat).
Proof.
  assert (H : tied_tally ≠ []) by (intros E; discriminate E).
  split; [exact H|].
  exact (proj1 (tie_goes_to_earliest_bucket tied_tally H)).
Defined.

Lemma replay_buffer_keeps_last_lines_witness :
  0 ≤ BUFFERLENGTH example_settings
  ∧ appended example_settings [] ["L1"; "L2"; "L3"; "L4"; "L5"; "L6"; "L7"]
    = ["L3"; "L4"; "L5"; "L6"; "L7"].
Proof.
  assert (H : 0 ≤ BUFFERLENGTH example_settings) by (simpl; lia).
  split; [exact H|].
  exact (proj1 (proj2 (replay_buffer_keeps_last_lines example_settings
           ["L1"; "L2"; "L3"; "L4"; "L5"; "L6"; "L7"] H))).
Defined.

(** * Further properties *)

(** ** Quorum arithmetic *)

Lemma required_votes_of_dyadic (n : nat) (d : positive) (j : Z) :
  Z.pos d = 2 ^ j → required_votes_of n (1 # d) = Z.of_nat n / 2 ^ j + 1.
Proof.
  intros Hd. unfold required_votes_of, Py.int. cbn [Qmult Qnum Qden inject_Z].
  rewrite Z.mul_1_r, Pos.mul_1_l, Z.quot_div_nonneg, Hd by lia.
  assert (0 ≤ Z.of_nat n / 2 ^ j) by (apply Z.div_pos; lia).
  lia.
Qed.

(** X1.  The ratios 1, 1/2, 1/4, ... are floats, and the product of a
    count below [2^53] with one of them is exact.  For such a ratio
    [1/2^j] line 86, computed in floats, returns the quorum that
    [get_required_votes] returns in the model, which is
    [floor(count / 2^j) + 1]; and for a ratio of 1/2 or less and at least
    one active user this quorum is at most the number of active users it
    was computed from, so that they can reach it. *)
Theorem quorum_of_dyadic_ratio (cfg : settings) (s : InformBot) (now : Z)
    (d : positive) (j : Z) :
  MAJORITY_RATIO cfg = 1 # d → Z.pos d = 2 ^ j → j ≤ 1022 →
  Z.of_nat (get_active_user_count cfg s now).1 < 2 ^ 53 →
  let n := Z.of_nat (get_active_user_count cfg s now).1 in
  required_votes_binary64 n (Float64.inv_pow2 j)
    = Some (get_required_votes cfg s now).1
  ∧ (get_required_votes cfg s now).1 = n / 2 ^ j + 1
  ∧ (1 ≤ j → 1 ≤ n → (get_required_votes cfg s now).1 ≤ n).
Proof.
  intros Hratio Hd Hj Hn n.
  assert (H0 : 0 ≤ j).
  { destruct (Z.le_gt_cases 0 j); [done|]. rewrite Z.pow_neg_r in Hd; lia. }
  assert (Hreq : (get_required_votes cfg s now).1 = n / 2 ^ j + 1).
  { unfold get_required_votes.
    destruct (get_active_user_count cfg s now) as [c s'] eqn:Hc. cbn [fst] in *.
    rewrite Hratio. by apply required_votes_of_dyadic. }
  split; [|split; [done|]].
  - rewrite Hreq. apply required_votes_pow2; lia.
  - intros Hj1 Hn1. rewrite Hreq.
    assert (n / 2 ^ j ≤ n / 2 ^ 1).
    { apply Z.div_le_compat_l; [lia|]. split; [lia|].
      apply Z.pow_le_mono_r; lia. }
    change (2 ^ 1) with 2 in *.
    assert (n / 2 < n) by (apply Z.div_lt; lia). lia.
Qed.

(** ** Activity *)

Section MoreActivity.

Context (cfg : settings).

Lemma purge_purge (c1 c2 : Z) (m : gmap string Z) :
  purge c2 (purge c1 m) = purge (Z.max c1 c2) m.
Proof.
  apply map_eq. intros k. apply option_eq. intros ts.
  rewrite !lookup_purge.
  split; [intros [[? ?] ?] | intros [? ?]]; repeat split; try done; lia.
Qed.

Lemma purge_subseteq (c : Z) (m : gmap string Z) : dom (purge c m) ⊆ dom m.
Proof.
  intros k [ts Hts]%elem_of_dom. apply lookup_purge in Hts as [Hts _].
  apply elem_of_dom. eauto.
Qed.

(** X3.  Two activity counts in a row, the second not earlier than the
    first, leave the state and return the count that the second alone
    would; and without a message in between the second count is at most
    the first.  So the quorum of an iteration of [_vote_loop] is the one
    of its second clock reading. *)
Theorem active_count_twice (s : InformBot) (t1 t2 : Z) :
  t1 ≤ t2 →
  get_active_user_count cfg (get_active_user_count cfg s t1).2 t2
    = get_active_user_count cfg s t2
  ∧ ((get_active_user_count cfg s t2).1
       ≤ (get_active_user_count cfg s t1).1)%nat
  ∧ tick_required_votes cfg s t1 t2 = (get_required_votes cfg s t2).1.
Proof.
  intros Ht.
  assert (Hpp : purge (t2 - ACTIVE_DECAY cfg)
                  (purge (t1 - ACTIVE_DECAY cfg) (users_last_activity s))
                = purge (t2 - ACTIVE_DECAY cfg) (users_last_activity s)).
  { rewrite purge_purge. f_equal. lia. }
  assert (Htwice : get_active_user_count cfg (get_active_user_count cfg s t1).2 t2
                   = get_active_user_count cfg s t2).
  { unfold get_active_user_count, set_users_last_activity.
    cbn [fst snd users_last_activity game gamename voter_choices votes
         game_votes game_voter_choices stopgame_voters replay_buffer
         command_vote_start load_vote_start stopgame_vote_start].
    by rewrite Hpp. }
  split; [done|]. split.
  - unfold get_active_user_count. cbn [fst users_last_activity set_users_last_activity].
    rewrite !length_active_users. apply subseteq_size.
    rewrite <- Hpp.
    intros k [Hk Hb]%elem_of_difference. apply elem_of_difference.
    split; [|done]. by apply purge_subseteq in Hk.
  - unfold tick_required_votes, get_required_votes. by rewrite Htwice.
Qed.

Lemma purge_delete (c : Z) (user : string) (m : gmap string Z) :
  purge c (delete user m) = delete user (purge c m).
Proof.
  apply map_eq. intros k. apply option_eq. intros ts.
  rewrite lookup_purge, !lookup_delete_Some, lookup_purge. tauto.
Qed.

Lemma elem_of_active_users (m : gmap string Z) (u : string) :
  u ∈ active_users cfg m ↔ u ≠ BOT_NICK cfg ∧ is_Some (m !! u).
Proof.
  unfold active_users. rewrite list_elem_of_filter, list_elem_of_fmap.
  split.
  - intros [Hb ([k ts] & -> & Hin%elem_of_map_to_list)]. eauto.
  - intros [Hb [ts Hts]]. split; [done|].
    exists (u, ts). split; [done|]. by apply elem_of_map_to_list.
Qed.

Lemma NoDup_active_users (m : gmap string Z) : NoDup (active_users cfg m).
Proof. apply NoDup_filter, NoDup_fst_map_to_list. Qed.

(** X4.  Whoever sends a message, whatever it says, has the time of the
    message as activity record afterwards and, unless it is the bot
    itself, is one of the users that every count taken no later than
    [ACTIVE_DECAY] after the message counts: the count is the number of
    the users it lists, no user is listed twice, the sender is listed, and
    without the record of the sender the count would be one less. *)
Theorem sender_is_active (s : InformBot) (user raw : string) (now now' t : Z)
    (games : list string) :
  user ≠ BOT_NICK cfg →
  now' - ACTIVE_DECAY cfg ≤ now →
  t - ACTIVE_DECAY cfg ≤ now →
  let s' := (on_pubmsg cfg s user raw now now' games).1 in
  let counted :=
    active_users cfg (users_last_activity (get_active_user_count cfg s' t).2) in
  users_last_activity s' !! user = Some now
  ∧ (get_active_user_count cfg s' t).1 = length counted
  ∧ NoDup counted
  ∧ user ∈ counted
  ∧ (get_active_user_count cfg s' t).1
    = S (get_active_user_count cfg
           (set_users_last_activity (delete user (users_last_activity s')) s')
           t).1
  ∧ (1 ≤ (get_active_user_count cfg s' t).1)%nat.
Proof.
  intros Hbot Hnow' Ht s' counted.
  assert (Hrec : users_last_activity s' !! user = Some now).
  { subst s'. unfold on_pubmsg. cbv zeta.
    unfold _handle_status, get_required_votes, get_active_user_count,
      cast_vote, record_vote.
    cbv zeta.
    repeat match goal with
      | |- context [bool_decide ?P] => destruct (bool_decide P)
      | |- context [Py.startswith ?a ?b] => destruct (Py.startswith a b)
      | |- context [match game ?s with _ => _ end] => destruct (game s)
      | |- context [match replay_buffer ?s with _ => _ end] =>
          destruct (replay_buffer s)
      | |- context [match vote_status ?c ?s ?n with _ => _ end] =>
          destruct (vote_status c s n)
      end;
      cbn [fst snd users_last_activity set_users_last_activity
           set_game_votes set_game_voter_choices set_load_vote_start
           set_votes set_voter_choices set_command_vote_start
           set_stopgame_voters set_stopgame_vote_start];
      try apply lookup_insert_eq.
    all: apply lookup_purge; split; [apply lookup_insert_eq | lia]. }
  assert (Hkept : purge (t - ACTIVE_DECAY cfg) (users_last_activity s') !! user
                  = Some now).
  { apply lookup_purge. split; [done | lia]. }
  assert (Hin : user ∈ counted).
  { apply elem_of_active_users. split; [done|].
    unfold get_active_user_count. cbn [snd users_last_activity set_users_last_activity].
    by exists now. }
  assert (Hsucc : (get_active_user_count cfg s' t).1
                  = S (get_active_user_count cfg
                         (set_users_last_activity
                            (delete user (users_last_activity s')) s') t).1).
  { unfold get_active_user_count.
    cbn [fst users_last_activity set_users_last_activity].
    rewrite !length_active_users, purge_delete, dom_delete_L.
    set (X := dom (purge (t - ACTIVE_DECAY cfg) (users_last_activity s'))).
    assert (HX : user ∈ X ∖ {[BOT_NICK cfg]}).
    { apply elem_of_difference. split.
      - apply elem_of_dom. by exists now.
      - by intros ?%elem_of_singleton. }
    replace (X ∖ {[user]} ∖ {[BOT_NICK cfg]})
      with ((X ∖ {[BOT_NICK cfg]}) ∖ {[user]}).
    2:{ apply set_eq. intros k. rewrite !elem_of_difference. tauto. }
    rewrite (size_difference (X ∖ {[BOT_NICK cfg]}) {[user]})
      by (apply singleton_subseteq_l; exact HX).
    rewrite size_singleton.
    assert (size (X ∖ {[BOT_NICK cfg]}) ≠ 0%nat); [|lia].
    intros Hz%size_empty_inv.
    apply (not_elem_of_empty (C := gset string) user). by apply Hz. }
  split; [done|]. split; [done|]. split; [apply NoDup_active_users|].
  split; [done|]. split; [done|]. lia.
Qed.
End MoreActivity.

(** ** The outcomes of a message, of an iteration and of a relayed line *)

Section Outcomes.

Context (cfg : settings).

(** The outcomes of [on_pubmsg]: replies and nothing else; a load vote; a
    command vote; a stop vote; the status line, which also purges the
    activity records; or nothing at all.  [s0] is the state with the
    sender's activity recorded. *)
Lemma on_pubmsg_cases (s : InformBot) (user raw : string) (now now' : Z)
    (games : list string) :
  let s0 := set_users_last_activity (<[user := now]> (users_last_activity s)) s in
  let out := on_pubmsg cfg s user raw now now' games in
  (∃ texts, texts ≠ [] ∧ out = (s0, Privmsg (CHANNEL cfg) <$> texts))
  ∨ (∃ name, name ∈ games ∧
       out = (set_load_vote_start (start_if_unset (load_vote_start s) now')
                (set_game_votes
                   (cast_vote user name (game_voter_choices s) (game_votes s)).2
                   (set_game_voter_choices
                      (cast_vote user name (game_voter_choices s) (game_votes s)).1
                      s0)), []))
  ∨ (∃ cmd p, cmd ≠ "" ∧ game s = Some p ∧
       out = (set_command_vote_start (start_if_unset (command_vote_start s) now')
                (set_votes (cast_vote user cmd (voter_choices s) (votes s)).2
                   (set_voter_choices
                      (cast_vote user cmd (voter_choices s) (votes s)).1 s0)), []))
  ∨ (∃ p, game s = Some p ∧ (user ∉ stopgame_voters s) ∧
       out = (set_stopgame_vote_start
                (start_if_unset (stopgame_vote_start s) now')
                (set_stopgame_voters (stopgame_voters s ∪ {[user]}) s0), []))
  ∨ (∃ text,
       out = (set_users_last_activity
                (purge (now' - ACTIVE_DECAY cfg)
                   (<[user := now]> (users_last_activity s))) s,
              [Privmsg (CHANNEL cfg) text]))
  ∨ out = (s0, []).
Proof.
  intros s0 out. subst out. unfold on_pubmsg. cbv zeta. fold s0.
  destruct (bool_decide (Py.lower (Py.strip raw) = "!games")).
  { left. eexists [_]. split; [done | reflexivity]. }
  destruct (Py.startswith (Py.lower (Py.strip raw)) "!load ").
  { case_bool_decide as Hin.
    - right; left. eexists. split; [exact Hin | reflexivity].
    - left. eexists [_]. split; [done | reflexivity]. }
  destruct (Py.startswith (Py.lower (Py.strip raw)) "!vote").
  { case_bool_decide as Hcmd.
    - left. destruct (vote_status cfg s0 now) as [|text texts].
      + eexists [_]. split; [done | reflexivity].
      + exists (text :: texts). split; [done | reflexivity].
    - change (game s0) with (game s). destruct (game s) as [p|] eqn:Hgame.
      + right; right; left. eexists _, p. split; [exact Hcmd|].
        split; [reflexivity | reflexivity].
      + left. eexists [_]. split; [done | reflexivity]. }
  destruct (bool_decide (Py.lower (Py.strip raw) = "!stopgame")).
  { change (game s0) with (game s). destruct (game s) as [p|] eqn:Hgame.
    - case_bool_decide as Hvoted.
      + right; right; right; left. exists p. split; [reflexivity|].
        split; [exact Hvoted | reflexivity].
      + left. eexists [_]. split; [done | reflexivity].
    - left. eexists [_]. split; [done | reflexivity]. }
  destruct (bool_decide (Py.lower (Py.strip raw) = "!replay")).
  { left. change (replay_buffer s0) with (replay_buffer s).
    destruct (replay_buffer s) as [|line lines].
    - eexists [_]. split; [done | reflexivity].
    - exists (line :: lines). split; [done | reflexivity]. }
  destruct (bool_decide (Py.lower (Py.strip raw) = "!status")).
  { right; right; right; right; left. eexists. reflexivity. }
  destruct (bool_decide (Py.lower (Py.strip raw) = "!help")).
  { left. eexists [_]. split; [done | reflexivity]. }
  right; right; right; right; right. reflexivity.
Qed.

Lemma due_elapsed (start : option Z) (now : Z) :
  due cfg start now = true →
  ∃ t, start = Some t ∧ VOTE_INTERVAL cfg ≤ now - t.
Proof.
  unfold due. destruct start as [t|]; [|done].
  intros [_ Hle]%andb_true_iff. exists t. split; [done|]. lia.
Qed.

Lemma most_common1_key (d : tally) (top : string) (n : nat) :
  most_common1 (vote_counts d) = Some (top, n) → top ∈ d.*1.
Proof.
  destruct d as [|b d]; [done|].
  change (vote_counts (b :: d)) with ((b.1, size b.2) :: vote_counts d).
  cbn [most_common1]. intros [= Hmax].
  destruct (max_by_count_first (b.1, size b.2) (vote_counts d)) as (i & Hi & _).
  rewrite Hmax in Hi.
  change ((b.1, size b.2) :: vote_counts d) with (vote_counts (b :: d)) in Hi.
  unfold vote_counts in Hi. rewrite list_lookup_fmap in Hi.
  destruct ((b :: d) !! i) as [b'|] eqn:Hb; [|done].
  injection Hi as <- _. apply list_elem_of_fmap. exists b'.
  split; [done|]. by eapply list_elem_of_lookup_2.
Qed.

(** The outcomes of an iteration: a load resolution, a stop resolution,
    the clearing without a game, a command resolution, or nothing.  [s1]
    is the state after the two activity counts and [req] the quorum. *)
Lemma _vote_loop_cases (s : InformBot) (now t1 t2 : Z) :
  let s1 := (get_active_user_count cfg (get_active_user_count cfg s t1).2 t2).2 in
  let req := tick_required_votes cfg s t1 t2 in
  let out := _vote_loop cfg s now t1 t2 in
  (∃ top n,
      due cfg (load_vote_start s) now = true
      ∧ most_common1 (vote_counts (game_votes s)) = Some (top, n)
      ∧ ((req ≤ Z.of_nat n
          ∧ out = (set_load_vote_start None
                     (clear_all_votes (load_game cfg s1 top).1),
                   ((load_game cfg s1 top).2
                    ++ [Privmsg (CHANNEL cfg) ("Loading game: " +:+ top)])%list))
         ∨ (Z.of_nat n < req
            ∧ out = (set_load_vote_start None (clear_all_votes s1),
                     [Privmsg (CHANNEL cfg)
                        "No majority to load game. Votes cleared."]))))
  ∨ (∃ p,
      due cfg (stopgame_vote_start s) now = true
      ∧ game s = Some p ∧ stopgame_voters s ≠ ∅
      ∧ ((req ≤ Z.of_nat (size (stopgame_voters s))
          ∧ out = (set_stopgame_vote_start None
                     (clear_all_votes (set_game None s1)),
                   [GameStop; Privmsg (CHANNEL cfg) "Game stopped by vote."]))
         ∨ (Z.of_nat (size (stopgame_voters s)) < req
            ∧ out = (set_stopgame_vote_start None (clear_all_votes s1),
                     [Privmsg (CHANNEL cfg)
                        "No majority to stop game. Votes cleared."]))))
  ∨ (game s = None ∧ out = (set_voter_choices ∅ (set_votes [] s1), []))
  ∨ (∃ p top n,
      game s = Some p
      ∧ due cfg (command_vote_start s) now = true
      ∧ most_common1 (vote_counts (votes s)) = Some (top, n)
      ∧ ((req ≤ Z.of_nat n
          ∧ out = (set_command_vote_start None
                     (set_voter_choices ∅ (set_votes [] s1)),
                   [GameSend top; Privmsg (CHANNEL cfg) ("> " +:+ top)]))
         ∨ (Z.of_nat n < req
            ∧ out = (set_command_vote_start None
                       (set_voter_choices ∅ (set_votes [] s1)),
                     [Privmsg (CHANNEL cfg)
                        "No majority for command. Votes cleared."]))))
  ∨ (∃ p, game s = Some p ∧ out = (s1, [])).
Proof.
  intros s1 req out. subst s1 req out.
  unfold tick_required_votes, _vote_loop, get_required_votes. cbv zeta.
  destruct (get_active_user_count cfg s t1) as [n1 sa] eqn:Ha.
  destruct (get_active_user_count cfg sa t2) as [n2 sb] eqn:Hb.
  cbn [fst snd]. rewrite Hb. cbn [fst snd].
  set (req := required_votes_of n2 (MAJORITY_RATIO cfg)). clearbody req.
  assert (Hsame : game sb = game s ∧ votes sb = votes s
                  ∧ game_votes sb = game_votes s
                  ∧ stopgame_voters sb = stopgame_voters s
                  ∧ command_vote_start sb = command_vote_start s
                  ∧ load_vote_start sb = load_vote_start s
                  ∧ stopgame_vote_start sb = stopgame_vote_start s).
  { unfold get_active_user_count in Ha, Hb.
    injection Ha as _ <-. injection Hb as _ <-. by repeat split. }
  destruct Hsame as (Hg & Hv & Hgv & Hsv & Hcs & Hls & Hss).
  clear Ha Hb. rewrite <- Hg, <- Hv, <- Hgv, <- Hsv, <- Hcs, <- Hls, <- Hss.
  clear Hg Hv Hgv Hsv Hcs Hls Hss.
  assert (Hsession :
    session_phase cfg sb req now = 
      match game sb with
      | None => (set_voter_choices ∅ (set_votes [] sb), [])
      | Some _ => command_phase cfg sb req now
      end) by reflexivity.
  assert (Hrest :
    (game sb = None
     ∧ session_phase cfg sb req now = (set_voter_choices ∅ (set_votes [] sb), []))
    ∨ (∃ p top n,
        game sb = Some p
        ∧ due cfg (command_vote_start sb) now = true
        ∧ most_common1 (vote_counts (votes sb)) = Some (top, n)
        ∧ ((req ≤ Z.of_nat n
            ∧ session_phase cfg sb req now =
                (set_command_vote_start None
                   (set_voter_choices ∅ (set_votes [] sb)),
                 [GameSend top; Privmsg (CHANNEL cfg) ("> " +:+ top)]))
           ∨ (Z.of_nat n < req
              ∧ session_phase cfg sb req now =
                  (set_command_vote_start None
                     (set_voter_choices ∅ (set_votes [] sb)),
                   [Privmsg (CHANNEL cfg)
                      "No majority for command. Votes cleared."]))))
    ∨ (∃ p, game sb = Some p ∧ session_phase cfg sb req now = (sb, []))).
  { rewrite Hsession. destruct (game sb) as [p|] eqn:Hgame; [|by left].
    right. unfold command_phase.
    destruct (due cfg (command_vote_start sb) now) eqn:Hdue;
      [|right; by exists p].
    destruct (votes sb) as [|b v] eqn:Hvotes; [right; by exists p|].
    destruct (most_common1 (vote_counts (b :: v))) as [[top n]|] eqn:Hmc;
      [|right; by exists p].
    left. exists p, top, n. split; [done|]. split; [done|]. split; [done|].
    destruct (Z.leb_spec req (Z.of_nat n)); [left | right]; by split. }
  assert (Hstop :
    (∃ p,
      due cfg (stopgame_vote_start sb) now = true
      ∧ game sb = Some p ∧ stopgame_voters sb ≠ ∅
      ∧ ((req ≤ Z.of_nat (size (stopgame_voters sb))
          ∧ stopgame_phase cfg sb req now =
              (set_stopgame_vote_start None
                 (clear_all_votes (set_game None sb)),
               [GameStop; Privmsg (CHANNEL cfg) "Game stopped by vote."]))
         ∨ (Z.of_nat (size (stopgame_voters sb)) < req
            ∧ stopgame_phase cfg sb req now =
                (set_stopgame_vote_start None (clear_all_votes sb),
                 [Privmsg (CHANNEL cfg)
                    "No majority to stop game. Votes cleared."]))))
    ∨ stopgame_phase cfg sb req now = session_phase cfg sb req now).
  { unfold stopgame_phase.
    destruct (due cfg (stopgame_vote_start sb) now) eqn:Hdue; [|by right].
    destruct (game sb) as [p|] eqn:Hgame; [|by right].
    case_bool_decide as Hvoters; [|by right].
    left. exists p. split; [done|]. split; [done|]. split; [done|].
    destruct (Z.leb_spec req (Z.of_nat (size (stopgame_voters sb))));
      [left | right]; by split. }
  unfold load_phase.
  destruct (due cfg (load_vote_start sb) now) eqn:Hdue.
  - destruct (game_votes sb) as [|b gv] eqn:Hgv.
    + destruct Hstop as [Hstop | ->]; [by right; left|].
      right; right. exact Hrest.
    + destruct (most_common1 (vote_counts (b :: gv))) as [[top n]|] eqn:Hmc;
        [|done].
      left. exists top, n. split; [done|]. split; [done|].
      destruct (Z.leb_spec req (Z.of_nat n)); [left | right]; by split.
  - destruct Hstop as [Hstop | ->]; [by right; left|].
    right; right. exact Hrest.
Qed.

(** One iteration of the relay changes the name of the game and the
    replay buffer at most, and speaks to the channel only. *)
Lemma _relay_game_output_frame (r : relay_locals) (s : InformBot) (x : reading) :
  let out := _relay_game_output cfg r s x in
  game out.1.2 = game s
  ∧ command_ballot out.1.2 = command_ballot s
  ∧ load_ballot out.1.2 = load_ballot s
  ∧ stop_ballot out.1.2 = stop_ballot s
  ∧ users_last_activity out.1.2 = users_last_activity s
  ∧ (out.2 = [] ∨ ∃ text, out.2 = [Privmsg (CHANNEL cfg) text]).
Proof.
  unfold _relay_game_output. cbv zeta.
  destruct x as [|line sent]; [by repeat split; try left|].
  destruct (bool_decide (line = "")); [by repeat split; try left|].
  destruct (bool_decide (Py.rstrip_crlf line = "")); [by repeat split; try left|].
  destruct sent;
    (destruct (first_line_set r); cbn [negb];
     [|destruct (bool_decide (S (game_name_counter r) = 3%nat))]);
    (repeat split; first [right; by eexists | by left]).
Qed.

End Outcomes.

(** The outcomes as case analyses. *)
Ltac project :=
  cbn [fst snd game gamename voter_choices votes game_votes
       game_voter_choices stopgame_voters replay_buffer users_last_activity
       command_vote_start load_vote_start stopgame_vote_start
       set_game set_gamename set_voter_choices set_votes set_game_votes
       set_game_voter_choices set_stopgame_voters set_replay_buffer
       set_users_last_activity set_command_vote_start set_load_vote_start
       set_stopgame_vote_start clear_all_votes load_game
       get_active_user_count command_ballot load_ballot stop_ballot].

Ltac message_outcomes cfg s user raw now now' games :=
  destruct (on_pubmsg_cases cfg s user raw now now' games)
    as [(texts & Htexts & ->)
       |[(name & Hname & ->)
        |[(cmd & p & Hcmd & Hgame & ->)
         |[(p & Hgame & Hvoted & ->)
          |[(text & ->)
           | ->]]]]];
  project.

Ltac iteration_outcomes cfg s now t1 t2 :=
  destruct (_vote_loop_cases cfg s now t1 t2)
    as [(top & n & Hdue & Hmc & [[Hreq ->] | [Hreq ->]])
       |[(p & Hdue & Hgame & Hvoters & [[Hreq ->] | [Hreq ->]])
        |[[Hgame ->]
         |[(p & top & n & Hgame & Hdue & Hmc & [[Hreq ->] | [Hreq ->]])
          |(p & Hgame & ->)]]]];
  project.

(** ** What a message can and cannot do *)

Section Messages.

Context (cfg : settings).

Lemma Forall_to_channel (texts : list string) :
  Forall (to_channel cfg) (Privmsg (CHANNEL cfg) <$> texts).
Proof.
  induction texts as [|text texts IH]; constructor; [by eexists | done].
Qed.

(** X5.  A message never reaches the game process: whatever it says,
    [on_pubmsg] leaves the game, its name and the replay buffer as they
    are, and all it emits are messages to the channel. *)
Theorem message_never_touches_game (s : InformBot) (user raw : string)
    (now now' : Z) (games : list string) :
  let s' := (on_pubmsg cfg s user raw now now' games).1 in
  game s' = game s
  ∧ gamename s' = gamename s
  ∧ replay_buffer s' = replay_buffer s
  ∧ Forall (to_channel cfg) (on_pubmsg cfg s user raw now now' games).2.
Proof.
  message_outcomes cfg s user raw now now' games; repeat split;
    lazymatch goal with
    | |- _ = _ => reflexivity
    | |- Forall _ [] => constructor
    | |- Forall _ [_] => apply (Forall_to_channel [_])
    | |- Forall _ _ => apply Forall_to_channel
    end.
Qed.

(** X6.  A message changes at most one of the three ballots (choices,
    tally and start time of the command, load and stop votes). *)
Theorem message_changes_one_ballot (s : InformBot) (user raw : string)
    (now now' : Z) (games : list string) :
  let s' := (on_pubmsg cfg s user raw now now' games).1 in
  (command_ballot s' = command_ballot s ∧ load_ballot s' = load_ballot s)
  ∨ (command_ballot s' = command_ballot s ∧ stop_ballot s' = stop_ballot s)
  ∨ (load_ballot s' = load_ballot s ∧ stop_ballot s' = stop_ballot s).
Proof.
  message_outcomes cfg s user raw now now' games;
    first [ left; split; reflexivity
          | right; left; split; reflexivity
          | right; right; split; reflexivity ].
Qed.

(** X7.  A vote is taken silently, and a reply means that nothing was
    recorded: whenever [on_pubmsg] sends anything to the channel (a
    listing, a report, a rejection of an unknown game, of a command
    without a game or of a second stop vote), the three ballots are as
    they were. *)
Theorem reply_means_no_vote (s : InformBot) (user raw : string)
    (now now' : Z) (games : list string) :
  (on_pubmsg cfg s user raw now now' games).2 ≠ [] →
  let s' := (on_pubmsg cfg s user raw now now' games).1 in
  command_ballot s' = command_ballot s
  ∧ load_ballot s' = load_ballot s
  ∧ stop_ballot s' = stop_ballot s.
Proof.
  message_outcomes cfg s user raw now now' games; intros Hev;
    first [ by destruct Hev | repeat split; reflexivity ].
Qed.

Lemma start_if_unset_cases (start : option Z) (now : Z) :
  start_if_unset start now = start
  ∨ (Py.truthy start = false ∧ start_if_unset start now = Some now).
Proof.
  unfold start_if_unset. destruct (Py.truthy start); [by left | by right].
Qed.

(** X8.  A message cannot restart or move a vote that is under way: each
    of the three start times is after the message what it was before,
    unless it was unset (or zero), in which case a vote may set it to the
    time of the message. *)
Theorem message_keeps_running_timers (s : InformBot) (user raw : string)
    (now now' : Z) (games : list string) :
  let s' := (on_pubmsg cfg s user raw now now' games).1 in
  (command_vote_start s' = command_vote_start s
   ∨ (Py.truthy (command_vote_start s) = false
      ∧ command_vote_start s' = Some now'))
  ∧ (load_vote_start s' = load_vote_start s
     ∨ (Py.truthy (load_vote_start s) = false
        ∧ load_vote_start s' = Some now'))
  ∧ (stopgame_vote_start s' = stopgame_vote_start s
     ∨ (Py.truthy (stopgame_vote_start s) = false
        ∧ stopgame_vote_start s' = Some now')).
Proof.
  message_outcomes cfg s user raw now now' games; repeat split;
    first [ by left | apply start_if_unset_cases ].
Qed.

End Messages.

(** ** Runs: the game process and the ballots *)

Section Runs.

Context (cfg : settings).

(** Without a game the command ballot and the stop ballot hold no vote. *)
Lemma reachable_idle (s : InformBot) :
  reachable cfg s →
  game s = None →
  voter_choices s = ∅ ∧ votes s = [] ∧ stopgame_voters s = ∅.
Proof.
  intros [inputs <-].
  induction inputs as [|i inputs IH] using rev_ind; [done|].
  rewrite run_snoc. set (s := run cfg init inputs) in *. clearbody s.
  destruct i as [user raw now now' games|now t1 t2|r x]; cbn [step].
  - message_outcomes cfg s user raw now now' games; try exact IH;
      intros Hnone; congruence.
  - iteration_outcomes cfg s now t1 t2; intros Hnone;
      first [ congruence
            | by repeat split
            | destruct (IH Hnone) as (_ & _ & Hs); by repeat split ].
  - pose proof (_relay_game_output_frame cfg r s x) as (Hg & Hc & _ & Hs & _).
    destruct (_relay_game_output cfg r s x) as [[r' s'] evs].
    cbn [fst snd] in *. rewrite Hg. intros Hnone.
    injection Hc as -> -> _. injection Hs as -> _. by apply IH.
Qed.

(** X9.  No command vote and no stop vote is ever held while no game is
    loaded: in every state that the bot reaches without a game, the
    choices and the tally of the command ballot and the set of stop
    voters are empty.  So the clearing of lines 315-318 never finds a
    vote to clear. *)
Theorem no_votes_without_game (s : InformBot) (now t1 t2 : Z) :
  reachable cfg s →
  game s = None →
  voter_choices s = ∅ ∧ votes s = [] ∧ stopgame_voters s = ∅
  ∧ session_phase cfg s (tick_required_votes cfg s t1 t2) now = (s, []).
Proof.
  intros Hr Hnone. destruct (reachable_idle s Hr Hnone) as (Hc & Hv & Hs).
  repeat split; try done.
  unfold session_phase. rewrite Hnone. destruct s. cbn in *. by subst.
Qed.

Lemma session_trace_app (running : bool) (evs1 evs2 : list event) :
  session_trace running (evs1 ++ evs2) =
    session_trace running evs1 ≫= λ running', session_trace running' evs2.
Proof.
  revert running. induction evs1 as [|e evs1 IH]; intros running; [done|].
  destruct e, running; cbn [session_trace app]; by rewrite ?IH.
Qed.

Lemma session_trace_privmsgs (running : bool) (texts : list string) :
  session_trace running (Privmsg (CHANNEL cfg) <$> texts) = Some running.
Proof. induction texts as [|text texts IH]; [done | exact IH]. Qed.

Lemma step_session_trace (s : InformBot) (i : input) :
  session_trace (runs s) (step cfg s i).2 = Some (runs (step cfg s i).1).
Proof.
  unfold runs.
  destruct i as [user raw now now' games|now t1 t2|r x]; cbn [step].
  - message_outcomes cfg s user raw now now' games;
      first [ apply session_trace_privmsgs | reflexivity ].
  - iteration_outcomes cfg s now t1 t2;
      try (destruct (game s); try discriminate); try reflexivity.
  - pose proof (_relay_game_output_frame cfg r s x) as (Hg & _ & _ & _ & _ & He).
    destruct (_relay_game_output cfg r s x) as [[r' s'] evs].
    cbn [fst snd] in *. rewrite Hg. by destruct He as [-> | [text ->]].
Qed.

(** X10.  Over any run from the initial state, the calls into the game
    process come in turn: a game is started only when none runs (a running
    one is stopped first), commands are sent and a stop is called only
    while one runs; and a game runs after the calls exactly when the state
    holds one. *)
Theorem game_calls_in_turn (inputs : list input) :
  session_trace false (run_events cfg init inputs)
    = Some (bool_decide (is_Some (game (run cfg init inputs)))).
Proof.
  change false with (runs init). fold (runs (run cfg init inputs)).
  generalize init. induction inputs as [|i inputs IH]; intros s; [done|].
  cbn [run_events]. rewrite session_trace_app, step_session_trace.
  cbn [mbind option_bind]. apply IH.
Qed.

(** X11.  An iteration of the vote loop is silent, and calls nothing,
    unless one of the three start times is set and [VOTE_INTERVAL] has
    passed since. *)
Theorem iteration_silent_before_interval (s : InformBot) (now t1 t2 : Z) :
  (_vote_loop cfg s now t1 t2).2 ≠ [] →
  ∃ t, (load_vote_start s = Some t ∨ stopgame_vote_start s = Some t
        ∨ command_vote_start s = Some t)
       ∧ VOTE_INTERVAL cfg ≤ now - t.
Proof.
  iteration_outcomes cfg s now t1 t2; intros Hev; try done;
    apply due_elapsed in Hdue as (t & Ht & Hle); exists t; auto.
Qed.

(** X12.  In a reachable state an iteration that has no resolution to
    perform says nothing and leaves the game and the three ballots as
    they are. *)
Theorem idle_iteration_changes_nothing (s : InformBot) (now t1 t2 : Z) :
  reachable cfg s →
  resolution cfg s now = None →
  let out := _vote_loop cfg s now t1 t2 in
  out.2 = []
  ∧ game out.1 = game s
  ∧ command_ballot out.1 = command_ballot s
  ∧ load_ballot out.1 = load_ballot s
  ∧ stop_ballot out.1 = stop_ballot s.
Proof.
  intros Hr Hres.
  destruct (iteration_without_resolution cfg s now t1 t2 Hres)
    as (Hev & Hg & Hgv & Hgvc & Hsv & Hls & Hss & Hcs & Hcmd).
  cbv zeta. unfold command_ballot, load_ballot, stop_ballot.
  rewrite Hev, Hg, Hgv, Hgvc, Hsv, Hls, Hss, Hcs.
  destruct (game s) eqn:Hgame.
  - destruct Hcmd as [-> ->]. by repeat split.
  - destruct Hcmd as [-> ->].
    destruct (reachable_idle s Hr Hgame) as (-> & -> & _). by repeat split.
Qed.

End Runs.

(** ** Votes add up, and calls need a quorum of them *)

Lemma total_votes_consistent (d : tally) (choices : gmap string string) :
  tally_consistent choices d → total_votes d = size choices.
Proof.
  revert choices. induction d as [|[k users] d IH]; intros choices [Hnd Hd].
  - cbn [total_votes foldr]. symmetry. apply map_size_empty_iff, map_empty.
    intros u. destruct (choices !! u) as [c|] eqn:Hc; [|done].
    apply Hd in Hc. cbn [bucket] in Hc. by apply not_elem_of_empty in Hc.
  - rewrite fmap_cons in Hnd. cbn [fst] in Hnd.
    apply NoDup_cons in Hnd as [Hk Hnd'].
    assert (Hhead : ∀ u, u ∈ users ↔ choices !! u = Some k).
    { intros u. rewrite <- Hd. cbn [bucket]. by destruct (decide (k = k)). }
    assert (Htail : ∀ u k', k' ≠ k → u ∈ bucket k' d ↔ choices !! u = Some k').
    { intros u k' Hne. rewrite <- Hd. cbn [bucket].
      destruct (decide (k = k')); [congruence | done]. }
    set (rest := filter (λ p : string * string, p.2 ≠ k) choices).
    set (here := filter (λ p : string * string, ¬ p.2 ≠ k) choices).
    assert (Hrest : tally_consistent rest d).
    { split; [done|]. intros u k'. subst rest.
      rewrite map_lookup_filter_Some. cbn [snd]. split.
      - intros Hin. assert (k' ≠ k).
        { intros ->. rewrite bucket_no_key in Hin by done.
          by apply not_elem_of_empty in Hin. }
        split; [by apply Htail | done].
      - intros [Hc Hne]. by apply Htail. }
    assert (Hhere : size here = size users).
    { rewrite <- size_dom. f_equal. apply set_eq. intros u.
      rewrite elem_of_dom, Hhead. subst here. split.
      - intros [c [Hc Heq]%map_lookup_filter_Some]. cbn [snd] in Heq.
        destruct (decide (c = k)) as [->|Hne]; [done | by destruct Heq].
      - intros Hc. exists k. apply map_lookup_filter_Some. split; [done|].
        cbn [snd]. by intros []. }
    assert (Hsplit : size choices = (size rest + size here)%nat).
    { rewrite <- (map_filter_union_complement
                    (λ p : string * string, p.2 ≠ k) choices) at 1.
      by rewrite map_size_disj_union by apply map_disjoint_filter_complement. }
    cbn [total_votes foldr snd]. fold (total_votes d).
    rewrite (IH rest Hrest). lia.
Qed.

(** X13.  In every reachable state the votes that a tally counts add up
    to the number of users with a recorded choice, for the command ballot
    and for the load ballot: no vote is lost and none is counted twice. *)
Theorem votes_add_up (cfg : settings) (s : InformBot) :
  reachable cfg s →
  total_votes (votes s) = size (voter_choices s)
  ∧ total_votes (game_votes s) = size (game_voter_choices s).
Proof.
  intros [Hc Hg]%reachable_inv. split; by apply total_votes_consistent.
Qed.

Section Quorum.

Context (cfg : settings).

Lemma bucket_of_elem (k : string) (users : gset string) (d : tally) :
  NoDup d.*1 → (k, users) ∈ d → bucket k d = users.
Proof.
  induction d as [|[k' users'] d IH]; [by intros _ ?%elem_of_nil|].
  rewrite fmap_cons. cbn [fst bucket].
  intros [Hk Hnd]%NoDup_cons [[= -> ->] | Hin]%elem_of_cons.
  - by destruct (decide (k' = k')).
  - destruct (decide (k' = k)) as [->|Hne]; [|by apply IH].
    exfalso. apply Hk. apply list_elem_of_fmap. by exists (k, users).
Qed.

Lemma most_common1_count (d : tally) (top : string) (n : nat) :
  NoDup d.*1 →
  most_common1 (vote_counts d) = Some (top, n) → n = size (bucket top d).
Proof.
  intros Hnd. destruct d as [|b d]; [done|].
  change (vote_counts (b :: d)) with ((b.1, size b.2) :: vote_counts d).
  cbn [most_common1]. intros [= Hmax].
  destruct (max_by_count_first (b.1, size b.2) (vote_counts d)) as (i & Hi & _).
  rewrite Hmax in Hi.
  change ((b.1, size b.2) :: vote_counts d) with (vote_counts (b :: d)) in Hi.
  unfold vote_counts in Hi. rewrite list_lookup_fmap in Hi.
  destruct ((b :: d) !! i) as [[k users]|] eqn:Hb; [|done].
  cbn in Hi. injection Hi as -> <-.
  by rewrite (bucket_of_elem top users (b :: d) Hnd)
    by by eapply list_elem_of_lookup_2.
Qed.

Lemma size_bucket_supporters (choices : gmap string string) (d : tally)
    (k : string) :
  tally_consistent choices d → size (bucket k d) = supporters choices k.
Proof.
  intros [_ Hd]. unfold supporters. rewrite <- size_dom. f_equal.
  apply set_eq. intros u. rewrite Hd, elem_of_dom. split.
  - intros Hc. exists k. by apply map_lookup_filter_Some.
  - intros [c [Hc Heq]%map_lookup_filter_Some]. cbn [snd] in Heq. by subst c.
Qed.

(** X14.  Nothing is done to the game without a quorum of recorded votes.
    In a reachable state, an iteration sends a command only if at least
    as many users as the quorum of the iteration have it as their recorded
    choice, starts a game only if as many have chosen it, and ends with no
    game after one only if as many have voted to stop. *)
Theorem calls_need_quorum (s : InformBot) (now t1 t2 : Z) :
  reachable cfg s →
  let out := _vote_loop cfg s now t1 t2 in
  let req := tick_required_votes cfg s t1 t2 in
  (∀ c, GameSend c ∈ out.2 →
     req ≤ Z.of_nat (supporters (voter_choices s) c))
  ∧ (∀ path, GameStart path ∈ out.2 →
       ∃ g, path = Py.path_join (GAME_DIR cfg) g
            ∧ req ≤ Z.of_nat (supporters (game_voter_choices s) g))
  ∧ (is_Some (game s) → game out.1 = None →
       req ≤ Z.of_nat (size (stopgame_voters s))).
Proof.
  intros [Hc Hg]%reachable_inv. cbv zeta.
  assert (Hsend : ∀ top n, most_common1 (vote_counts (votes s)) = Some (top, n) →
            Z.of_nat n = Z.of_nat (supporters (voter_choices s) top)).
  { intros top n Hmc. f_equal.
    rewrite (most_common1_count _ _ _ (proj1 Hc) Hmc).
    by apply size_bucket_supporters. }
  assert (Hload : ∀ top n,
            most_common1 (vote_counts (game_votes s)) = Some (top, n) →
            Z.of_nat n = Z.of_nat (supporters (game_voter_choices s) top)).
  { intros top n Hmc. f_equal.
    rewrite (most_common1_count _ _ _ (proj1 Hg) Hmc).
    by apply size_bucket_supporters. }
  iteration_outcomes cfg s now t1 t2;
    (split; [intros c Hin | split; [intros path Hin | intros Hsome Hnone]]);
    try (repeat (apply elem_of_cons in Hin as [Hin | Hin]; [done|]);
         by apply elem_of_nil in Hin);
    try discriminate Hnone;
    try (rewrite Hgame in Hnone; discriminate Hnone);
    try (by destruct Hsome as [? Hsome]; rewrite Hgame in Hsome);
    try done.
  - apply elem_of_app in Hin as [Hin | Hin];
      [|by apply list_elem_of_singleton in Hin].
    apply elem_of_app in Hin as [Hin | Hin];
      [|by apply list_elem_of_singleton in Hin].
    destruct (game s);
      repeat (apply elem_of_cons in Hin as [Hin | Hin]; [done|]);
      by apply elem_of_nil in Hin.
  - exists top. rewrite <- (Hload top n Hmc). split; [|done].
    apply elem_of_app in Hin as [Hin | Hin];
      [|by apply list_elem_of_singleton in Hin].
    apply elem_of_app in Hin as [Hin | Hin].
    + destruct (game s);
        repeat (apply elem_of_cons in Hin as [Hin | Hin]; [done|]);
        by apply elem_of_nil in Hin.
    + apply list_elem_of_singleton in Hin. by injection Hin.
  - destruct Hsome as [g' Hsome]. congruence.
  - apply elem_of_cons in Hin as [[= ->] | Hin].
    + by rewrite <- (Hsend top n Hmc).
    + apply list_elem_of_singleton in Hin. done.
Qed.

End Quorum.

(** ** Only listed games are loaded *)

Section Listed.

Context (cfg : settings).

Lemma retract_vote_keys (user : string) (choices : gmap string string) (d : tally) :
  tally_consistent choices d → (retract_vote user choices d).*1 = d.*1.
Proof.
  intros [Hnd Hd]. unfold retract_vote, dd_discard.
  destruct (choices !! user) as [old|] eqn:Hold; [|done].
  rewrite dd_update_keys. case_decide as Hin; [done|].
  apply Hd in Hold. rewrite bucket_no_key in Hold by done.
  by apply not_elem_of_empty in Hold.
Qed.

Lemma cast_vote_keys (user choice k : string) (choices : gmap string string)
    (d : tally) :
  tally_consistent choices d →
  k ∈ (cast_vote user choice choices d).2.*1 → k = choice ∨ k ∈ d.*1.
Proof.
  intros Hc. unfold cast_vote, record_vote, dd_add. cbn [snd].
  rewrite dd_update_keys, retract_vote_keys by done.
  case_decide; [by right|].
  intros [Hk | ->%list_elem_of_singleton]%elem_of_app; [by right | by left].
Qed.

(** A step starts only games that have a bucket in the load tally, and
    the buckets it leaves are those it found and those of the listing of
    a message. *)
Lemma step_listed (s : InformBot) (i : input) :
  bot_inv s →
  (∀ path, GameStart path ∈ (step cfg s i).2 →
     ∃ g, g ∈ (game_votes s).*1 ∧ path = Py.path_join (GAME_DIR cfg) g)
  ∧ (∀ k, k ∈ (game_votes (step cfg s i).1).*1 →
       k ∈ (game_votes s).*1 ∨ k ∈ listed [i]).
Proof.
  intros [Hc Hg].
  destruct i as [user raw now now' games|now t1 t2|r x];
    cbn [step listed].
  - rewrite app_nil_r.
    destruct (on_pubmsg_cases cfg s user raw now now' games)
      as [(texts & Htexts & ->)
         |[(name & Hname & ->)
          |[(cmd & p & Hcmd & Hgame & ->)
           |[(p & Hgame & Hvoted & ->)
            |[(text & ->)
             | ->]]]]];
      project; (split; [|intros k Hk]);
      try (intros path Hin;
           first [ by apply elem_of_nil in Hin
                 | apply list_elem_of_fmap in Hin as (? & ? & ?); done
                 | apply list_elem_of_singleton in Hin; done ]);
      try (by left).
    apply cast_vote_keys in Hk as [-> | Hk]; [by right | by left | done].
  - destruct (_vote_loop_cases cfg s now t1 t2)
      as [(top & n & Hdue & Hmc & [[Hreq ->] | [Hreq ->]])
         |[(p & Hdue & Hgame & Hvoters & [[Hreq ->] | [Hreq ->]])
          |[[Hgame ->]
           |[(p & top & n & Hgame & Hdue & Hmc & [[Hreq ->] | [Hreq ->]])
            |(p & Hgame & ->)]]]];
      project; (split; [intros path Hin | intros k Hk]);
      try (by left); try (by apply elem_of_nil in Hk);
      try (repeat (apply elem_of_cons in Hin as [Hin | Hin]; [done|]);
           by apply elem_of_nil in Hin).
    exists top. split; [by eapply most_common1_key|].
    apply elem_of_app in Hin as [Hin | Hin].
    + apply elem_of_app in Hin as [Hin | Hin].
      * destruct (game s);
          repeat (apply elem_of_cons in Hin as [Hin | Hin]; [done|]);
          by apply elem_of_nil in Hin.
      * apply list_elem_of_singleton in Hin. by injection Hin.
    + by apply list_elem_of_singleton in Hin.
  - pose proof (_relay_game_output_frame cfg r s x) as (_ & _ & Hl & _ & _ & He).
    destruct (_relay_game_output cfg r s x) as [[r' s'] evs].
    cbn [fst snd] in *. injection Hl as _ -> _. split; [|by left].
    intros path Hin. destruct He as [-> | [text ->]].
    + by apply elem_of_nil in Hin.
    + by apply list_elem_of_singleton in Hin.
Qed.

Lemma run_events_listed (inputs : list input) (s : InformBot) (offered : list string) :
  bot_inv s →
  (∀ k, k ∈ (game_votes s).*1 → k ∈ offered) →
  ∀ path, GameStart path ∈ run_events cfg s inputs →
    ∃ g, g ∈ (offered ++ listed inputs)%list
         ∧ path = Py.path_join (GAME_DIR cfg) g.
Proof.
  revert s offered. induction inputs as [|i inputs IH];
    intros s offered Hinv Hkeys path Hin.
  { by apply elem_of_nil in Hin. }
  cbn [run_events] in Hin.
  destruct (step_listed s i Hinv) as [Hstart Hnext].
  assert (Hlisted : listed (i :: inputs) = (listed [i] ++ listed inputs)%list).
  { destruct i; cbn [listed]; by rewrite ?app_nil_r. }
  rewrite Hlisted.
  apply elem_of_app in Hin as [Hin | Hin].
  - destruct (Hstart path Hin) as (g & Hg & ->). exists g.
    split; [|done]. apply elem_of_app. left. by apply Hkeys.
  - destruct (IH (step cfg s i).1 (offered ++ listed [i])%list) with (path := path)
      as (g & Hg & ->); [by apply step_inv| |done|].
    + intros k Hk. apply elem_of_app.
      destruct (Hnext k Hk) as [Hold | Hnew]; [left; by apply Hkeys | by right].
    + exists g. split; [|done]. by rewrite app_assoc.
Qed.

(** X15.  Over any run from the initial state, every game that is started
    is a file of the game directory that some message found in its
    listing: the path is [GAME_DIR] joined with a name that [list_games]
    returned to a message of the run. *)
Theorem only_listed_games_start (inputs : list input) (path : string) :
  GameStart path ∈ run_events cfg init inputs →
  ∃ g, g ∈ listed inputs ∧ path = Py.path_join (GAME_DIR cfg) g.
Proof.
  intros Hin.
  apply (run_events_listed inputs init []); [| |done].
  - split; apply tally_consistent_empty.
  - intros k Hk. by apply elem_of_nil in Hk.
Qed.

End Listed.

(** ** The relay of the game output *)

Section Relay.

Context (cfg : settings).

Lemma forwarded_cons (line : string) (lines : list string) :
  forwarded (line :: lines) =
    if bool_decide (Py.rstrip_crlf line = "") then forwarded lines
    else Py.rstrip_crlf line :: forwarded lines.
Proof.
  unfold forwarded. rewrite fmap_cons, filter_cons.
  case_bool_decide; case_decide; done.
Qed.

Lemma delivered_all_sent (lines : list string) :
  delivered (all_sent lines) = forwarded lines.
Proof.
  induction lines as [|line lines IH]; [done|].
  rewrite forwarded_cons. cbn [all_sent fmap list_fmap delivered].
  fold (all_sent lines). rewrite IH. by case_bool_decide.
Qed.

Lemma named_all_sent (lines : list string) :
  named (all_sent lines) = forwarded lines.
Proof.
  induction lines as [|line lines IH]; [done|].
  rewrite forwarded_cons. cbn [all_sent fmap list_fmap named].
  fold (all_sent lines). rewrite IH. by case_bool_decide.
Qed.

Lemma relay_skips (r : relay_locals) (s : InformBot) (line : string) (sent : bool) :
  Py.rstrip_crlf line = "" →
  _relay_game_output cfg r s (Line line sent) = (Some r, s, []).
Proof.
  intros Hempty. unfold _relay_game_output.
  case_bool_decide; [done|]. by rewrite bool_decide_eq_true_2.
Qed.

Lemma relay_forwards (r : relay_locals) (s : InformBot) (line : string) (sent : bool) :
  Py.rstrip_crlf line ≠ "" →
  ∃ r' name,
    _relay_game_output cfg r s (Line line sent) =
      (if sent then
         (Some r',
          set_replay_buffer
            (replay_append cfg (Py.rstrip_crlf line) (replay_buffer s))
            (set_gamename name s),
          [Privmsg (CHANNEL cfg) (Py.rstrip_crlf line)])
       else (None, set_gamename name s, []))
    ∧ ((first_line_set r = true ∧ r' = r ∧ name = gamename s)
       ∨ (first_line_set r = false ∧ game_name_counter r = 2%nat
          ∧ first_line_set r' = true ∧ name = Py.rstrip_crlf line)
       ∨ (first_line_set r = false ∧ game_name_counter r ≠ 2%nat
          ∧ r' = mkRelay false (S (game_name_counter r))
          ∧ name = gamename s)).
Proof.
  intros Hline. unfold _relay_game_output.
  case_bool_decide as Hraw; [by subst line|].
  rewrite bool_decide_eq_false_2 by done.
  destruct r as [[] c]; cbn [negb first_line_set game_name_counter].
  - exists (mkRelay true c), (gamename s). destruct s, sent. all: split; [done | by left].
  - case_bool_decide as Hc.
    + exists (mkRelay true (S c)), (Py.rstrip_crlf line).
      split; [by destruct sent|]. right; left.
      repeat split. by injection Hc.
    + exists (mkRelay false (S c)), (gamename s). destruct s.
      split; [by destruct sent|]. right; right. repeat split. intros ->. done.
Qed.

(** What the relay loop does to the state and says to the channel. *)
Lemma relay_lines_spec (reads : list reading) (r : relay_locals) (s : InformBot) :
  let out := relay_lines cfg r s reads in
  out.2 = Privmsg (CHANNEL cfg) <$> delivered reads
  ∧ replay_buffer out.1.2 = appended cfg (replay_buffer s) (delivered reads)
  ∧ game out.1.2 = game s
  ∧ command_ballot out.1.2 = command_ballot s
  ∧ load_ballot out.1.2 = load_ballot s
  ∧ stop_ballot out.1.2 = stop_ballot s
  ∧ users_last_activity out.1.2 = users_last_activity s.
Proof.
  revert r s. induction reads as [|[|line sent] reads IH]; intros r s.
  { by repeat split. }
  { by repeat split. }
  cbn [relay_lines delivered].
  case_bool_decide as Hline.
  - rewrite relay_skips by done.
    specialize (IH r s). destruct (relay_lines cfg r s reads) as [[r2 s2] evs2].
    exact IH.
  - destruct (relay_forwards r s line sent Hline) as (r' & name & -> & _).
    destruct sent; [|by repeat split].
    specialize (IH r' (set_replay_buffer
                         (replay_append cfg (Py.rstrip_crlf line) (replay_buffer s))
                         (set_gamename name s))).
    destruct (relay_lines cfg r' _ reads) as [[r2 s2] evs2].
    cbn [fst snd] in *. destruct IH as (-> & -> & -> & -> & -> & -> & ->).
    by repeat split.
Qed.

Lemma relay_lines_gamename (reads : list reading) (r : relay_locals) (s : InformBot) :
  gamename (relay_lines cfg r s reads).1.2 =
    if first_line_set r then gamename s
    else if (game_name_counter r <=? 2)%nat
         then default (gamename s)
                (named reads !! (2 - game_name_counter r)%nat)
         else gamename s.
Proof.
  revert r s. induction reads as [|[|line sent] reads IH]; intros r s.
  { cbn [relay_lines fst snd]. destruct (first_line_set r); [done|].
    by destruct (game_name_counter r <=? 2)%nat. }
  { cbn [relay_lines _relay_game_output fst snd]. destruct (first_line_set r); [done|].
    by destruct (game_name_counter r <=? 2)%nat. }
  cbn [relay_lines named].
  case_bool_decide as Hline.
  - rewrite relay_skips by done.
    specialize (IH r s). by destruct (relay_lines cfg r s reads) as [[r2 s2] evs2].
  - destruct (relay_forwards r s line sent Hline) as (r' & name & -> & Hr).
    destruct sent.
    + specialize (IH r' (set_replay_buffer
                           (replay_append cfg (Py.rstrip_crlf line) (replay_buffer s))
                           (set_gamename name s))).
      destruct (relay_lines cfg r' _ reads) as [[r2 s2] evs2].
      cbn [fst snd] in *. rewrite IH. cbn [gamename set_replay_buffer set_gamename].
      destruct Hr as [(Hset & -> & ->) | [(Hset & Hc & Hset' & ->) | (Hset & Hc & -> & ->)]];
        rewrite Hset; cbn [first_line_set game_name_counter].
      * done.
      * by rewrite Hset', Hc.
      * destruct (game_name_counter r) as [|[|[|c]]]; done.
    + cbn [fst snd gamename set_gamename].
      destruct Hr as [(Hset & -> & ->) | [(Hset & Hc & Hset' & ->) | (Hset & Hc & -> & ->)]];
        rewrite Hset.
      * done.
      * by rewrite Hc.
      * destruct (game_name_counter r) as [|[|[|c]]]; done.
Qed.

(** Once a pass has raised, the relay reads nothing more. *)
Lemma relay_lines_break (reads more : list reading) (r : relay_locals) (s : InformBot) :
  (relay_lines cfg r s reads).1.1 = None →
  relay_lines cfg r s (reads ++ more) = relay_lines cfg r s reads.
Proof.
  revert r s. induction reads as [|x reads IH]; intros r s; [done|].
  cbn [relay_lines app].
  destruct (_relay_game_output cfg r s x) as [[[r1|] s1] evs1]; [|done].
  specialize (IH r1 s1).
  destruct (relay_lines cfg r1 s1 reads) as [[r2 s2] evs2].
  destruct (relay_lines cfg r1 s1 (reads ++ more)) as [[r3 s3] evs3].
  cbn [fst snd]. intros ->. specialize (IH eq_refl). by injection IH as -> -> ->.
Qed.

(** X16.  A relay that starts with its fresh locals sets the name of the
    game to the third non-empty line that it gets to forward, whether
    [client.privmsg] then returns or raises on it, and the name stays so
    whatever follows.  If the loop reads fewer than three such lines, or
    ends on a raise before the third, the name is left as it was.  In a
    relay in which nothing raises this is the third non-empty line
    read. *)
Theorem gamename_is_third_line (s : InformBot) (reads : list reading)
    (lines : list string) :
  gamename (relay_lines cfg relay_start s reads).1.2
    = default (gamename s) (named reads !! 2%nat)
  ∧ gamename (relay_lines cfg relay_start s (all_sent lines)).1.2
    = default (gamename s) (forwarded lines !! 2%nat).
Proof. by rewrite !relay_lines_gamename, named_all_sent. Qed.

Lemma replay_reply (s : InformBot) (user : string) (now now' : Z)
    (games : list string) :
  (on_pubmsg cfg s user "!replay" now now' games).2 =
    match replay_buffer s with
    | [] => [Privmsg (CHANNEL cfg) "No lines to replay yet."]
    | line :: lines => Privmsg (CHANNEL cfg) <$> line :: lines
    end.
Proof.
  set (s0 := set_users_last_activity (<[user := now]> (users_last_activity s)) s).
  change (on_pubmsg cfg s user "!replay" now now' games)
    with (match replay_buffer s with
          | [] => (s0, [Privmsg (CHANNEL cfg) "No lines to replay yet."])
          | line :: lines => (s0, Privmsg (CHANNEL cfg) <$> line :: lines)
          end).
  by destruct (replay_buffer s).
Qed.

(** X17.  A relay sends the channel the lines it reads until a pass
    raises, each without its line end, the empty ones left out, in their
    order; the line on which [client.privmsg] raises is not sent, and
    after a raise nothing more is read.  The relay touches no ballot.
    From an empty replay buffer and with a capacity that is not negative,
    [!replay] then sends the last [BUFFERLENGTH] of the lines that were
    sent, in the same order, or the notice that there is nothing to replay
    if there is none.  In a relay in which nothing raises the lines sent
    are all the non-empty lines read. *)
Theorem replay_returns_last_relayed (r : relay_locals) (s : InformBot)
    (reads : list reading) (user : string) (now now' : Z) (games : list string) :
  0 ≤ BUFFERLENGTH cfg →
  replay_buffer s = [] →
  let out := relay_lines cfg r s reads in
  let kept := drop (length (delivered reads) - Z.to_nat (BUFFERLENGTH cfg))
                (delivered reads) in
  out.2 = Privmsg (CHANNEL cfg) <$> delivered reads
  ∧ replay_buffer out.1.2 = kept
  ∧ command_ballot out.1.2 = command_ballot s
  ∧ load_ballot out.1.2 = load_ballot s
  ∧ stop_ballot out.1.2 = stop_ballot s
  ∧ (on_pubmsg cfg out.1.2 user "!replay" now now' games).2
    = match kept with
      | [] => [Privmsg (CHANNEL cfg) "No lines to replay yet."]
      | _ => Privmsg (CHANNEL cfg) <$> kept
      end
  ∧ (out.1.1 = None → ∀ more, relay_lines cfg r s (reads ++ more) = out)
  ∧ ∀ lines, delivered (all_sent lines) = forwarded lines.
Proof.
  intros HN Hempty out kept.
  destruct (relay_lines_spec reads r s) as (Hev & Hbuf & _ & Hc & Hl & Hs & _).
  fold out in Hev, Hbuf, Hc, Hl, Hs.
  rewrite Hempty, appended_drop in Hbuf by done. fold kept in Hbuf.
  split; [done|]. split; [done|]. split; [done|]. split; [done|].
  split; [done|]. split; [|split].
  - rewrite replay_reply, Hbuf. by destruct kept.
  - intros Hbreak more. by apply relay_lines_break.
  - apply delivered_all_sent.
Qed.

End Relay.

(** ** The roster *)

Section RosterProps.

Context (cfg : settings).

Lemma lstrip_by_idemp (drop : ascii → bool) (s : string) :
  Py.lstrip_by drop (Py.lstrip_by drop s) = Py.lstrip_by drop s.
Proof.
  induction s as [|a s IH]; [done|]. cbn [Py.lstrip_by].
  destruct (drop a) eqn:Ha; [done|]. cbn [Py.lstrip_by]. by rewrite Ha.
Qed.

Lemma elem_of_add_clean (raws : list string) (clean : gset string) (nick : string) :
  nick ∈ foldl (Roster.add_clean cfg) clean raws ↔
    nick ∈ clean
    ∨ (nick ≠ BOT_NICK cfg
       ∧ ∃ raw, raw ∈ raws ∧ nick = Roster.strip_prefixes raw).
Proof.
  revert clean. induction raws as [|raw raws IH]; intros clean; cbn [foldl].
  - split; [by left|]. intros [? | (_ & raw & []%elem_of_nil & _)]. done.
  - rewrite IH. unfold Roster.add_clean at 1. cbv zeta. split.
    + intros [Hin | (Hne & raw' & Hraw' & ->)].
      * case_bool_decide as Hbot.
        -- apply elem_of_union in Hin as [Hin | ->%elem_of_singleton];
             [by left|].
           right. split; [done|]. exists raw. split; [by left | done].
        -- by left.
      * right. split; [done|]. exists raw'. split; [by right | done].
    + intros [Hin | (Hne & raw' & Hraw' & ->)].
      * left. case_bool_decide; [|done]. apply elem_of_union. by left.
      * apply elem_of_cons in Hraw' as [-> | Hraw'].
        -- left. rewrite bool_decide_eq_true_2 by done.
           apply elem_of_union. right. by apply elem_of_singleton.
        -- right. split; [done|]. by exists raw'.
Qed.

(** X18.  A names reply for the bot's channel replaces the roster: the
    new roster holds exactly the nicks of the reply, each without its
    leading mode prefixes, except the bot's own nick; none of them starts
    with a prefix character, and nothing of the old roster is kept.  A
    reply for another channel leaves the roster alone. *)
Theorem names_reply_replaces_roster (users : gset string) (channel names : string) :
  (∀ nick, nick ∈ Roster.on_names cfg users (CHANNEL cfg) names ↔
     nick ≠ BOT_NICK cfg
     ∧ Roster.strip_prefixes nick = nick
     ∧ ∃ raw, raw ∈ Roster.split names ∧ nick = Roster.strip_prefixes raw)
  ∧ Roster.on_names cfg users channel names =
      if bool_decide (channel = CHANNEL cfg)
      then Roster.on_names cfg ∅ (CHANNEL cfg) names
      else users.
Proof.
  unfold Roster.on_names. split.
  - intros nick. rewrite bool_decide_eq_true_2 by done.
    rewrite elem_of_add_clean. split.
    + intros [[]%not_elem_of_empty | (Hne & raw & Hraw & ->)].
      split; [done|]. split; [apply lstrip_by_idemp | by exists raw].
    + intros (Hne & _ & Hraw). by right.
  - case_bool_decide; [|done]. by rewrite bool_decide_eq_true_2.
Qed.

(** X19.  The bot never counts itself among the users of its channel:
    after any sequence of names replies, joins, parts, quits and kicks,
    from the empty roster, [BOT_NICK] is not in the roster. *)
Theorem bot_never_in_roster (events : list Roster.roster_event) :
  BOT_NICK cfg ∉ Roster.roster_run cfg events.
Proof.
  unfold Roster.roster_run.
  assert (Hgen : ∀ users, BOT_NICK cfg ∉ users →
            BOT_NICK cfg ∉ foldl (Roster.roster_step cfg) users events).
  { induction events as [|e events IH]; intros users Hout; [done|].
    cbn [foldl]. apply IH.
    destruct e as [channel names|target nick|target nick|nick|nick];
      cbn [Roster.roster_step].
    - unfold Roster.on_names. case_bool_decide; [|done].
      rewrite elem_of_add_clean.
      intros [[]%not_elem_of_empty | (Hne & _)]. done.
    - unfold Roster.on_join. repeat case_bool_decide; try done.
      intros [? | ?%elem_of_singleton]%elem_of_union; congruence.
    - unfold Roster.on_part. case_bool_decide; [|done].
      intros [? _]%elem_of_difference. done.
    - unfold Roster.on_quit. intros [? _]%elem_of_difference. done.
    - unfold Roster.on_kick. intros [? _]%elem_of_difference. done. }
  apply Hgen, not_elem_of_empty.
Qed.

End RosterProps.

(** ** A directory that cannot be listed, and a game that changes *)

Section Listing.

Context (cfg : settings).

(** X20.  When the game directory cannot be listed, [!games] answers that
    no games were found, and no message casts a load vote: whatever the
    message, the load ballot stays as it is. *)
Theorem no_listing_no_load_vote (s : InformBot) (user raw : string)
    (now now' : Z) :
  on_pubmsg cfg s user "!games" now now' (list_games None)
    = (set_users_last_activity (<[user := now]> (users_last_activity s)) s,
       [Privmsg (CHANNEL cfg) "No games found."])
  ∧ load_ballot (on_pubmsg cfg s user raw now now' (list_games None)).1
    = load_ballot s.
Proof.
  split; [reflexivity|].
  message_outcomes cfg s user raw now now' (list_games None);
    try reflexivity.
  by apply elem_of_nil in Hname.
Qed.

(** X21.  A change of game discards every vote: whenever an iteration of
    the vote loop ends with another game than it found, or with none, the
    choice maps and tallies of the command and load ballots and the set of
    stop voters are empty afterwards. *)
Theorem game_change_discards_votes (s : InformBot) (now t1 t2 : Z) :
  game (_vote_loop cfg s now t1 t2).1 ≠ game s →
  let s' := (_vote_loop cfg s now t1 t2).1 in
  voter_choices s' = ∅ ∧ votes s' = []
  ∧ game_voter_choices s' = ∅ ∧ game_votes s' = []
  ∧ stopgame_voters s' = ∅.
Proof.
  iteration_outcomes cfg s now t1 t2; intros Hchange;
    first [ by repeat split | by destruct Hchange ].
Qed.

End Listing.

(** ** The further theorems at concrete inputs *)

Example scenario_banner :
  gamename (relay_lines example_settings relay_start init (all_sent banner_lines)).1.2
    = "ZORK I: The Great Underground Empire"
  ∧ (relay_lines example_settings relay_start init (all_sent banner_lines)).2
    = [Privmsg "#if" "Using normal formatting.";
       Privmsg "#if" "Loading games/zork.";
       Privmsg "#if" "ZORK I: The Great Underground Empire";
       Privmsg "#if" "West of House"].
Proof. vm_compute. by split. Qed.

(** A line that is too long ends the relay: one line is sent and kept, and
    the game keeps the name of [__init__]. *)
Example scenario_long_line :
  relay_lines example_settings relay_start init reads_long_line
    = (None, set_replay_buffer ["one"] init, [Privmsg "#if" "one"])
  ∧ gamename (relay_lines example_settings relay_start init reads_long_line).1.2
    = "Unknown".
Proof. vm_compute. by split. Qed.

(** A raise on the third line leaves the name set to a line that was
    neither sent nor kept. *)
Example scenario_lost_connection :
  relay_lines example_settings relay_start init reads_lost_connection
    = (None, set_gamename "three" (set_replay_buffer ["one"; "two"] init),
       [Privmsg "#if" "one"; Privmsg "#if" "two"]).
Proof. vm_compute. reflexivity. Qed.

Example scenario_names_reply :
  Roster.split names_reply = ["@alice"; "+bob"; "informbot"; "~@carol"]
  ∧ Roster.on_names example_settings {["dave"]} "#if" names_reply
    = {["alice"; "bob"; "carol"]}.
Proof. vm_compute. by split. Qed.

Lemma quorum_of_dyadic_ratio_witness :
  MAJORITY_RATIO example_settings = 1 # 2
  ∧ Z.pos 2 = 2 ^ 1
  ∧ 1 ≤ 1022
  ∧ Z.of_nat (get_active_user_count example_settings state_before_load 165).1
    < 2 ^ 53
  ∧ required_votes_binary64 3 (Float64.inv_pow2 1) = Some 2
  ∧ (get_required_votes example_settings state_before_load 165).1 = 2.
Proof.
  assert (Hr : MAJORITY_RATIO example_settings = 1 # 2) by reflexivity.
  assert (Hd : Z.pos 2 = 2 ^ 1) by reflexivity.
  assert (Hj : 1 ≤ 1022) by lia.
  assert (Hn : Z.of_nat (get_active_user_count example_settings
                           state_before_load 165).1 < 2 ^ 53)
    by (vm_compute; reflexivity).
  repeat (split; [assumption|]).
  pose proof (quorum_of_dyadic_ratio example_settings state_before_load 165
                2 1 Hr Hd Hj Hn) as (Hfloat & Hreq & _).
  split.
  - rewrite Hreq in Hfloat. exact Hfloat.
  - rewrite Hreq. vm_compute. reflexivity.
Defined.

Lemma active_count_twice_witness :
  165 ≤ 166
  ∧ tick_required_votes example_settings state_before_load 165 166
    = (get_required_votes example_settings state_before_load 166).1.
Proof.
  assert (H : 165 ≤ 166) by lia.
  split; [exact H|].
  exact (proj2 (proj2 (active_count_twice example_settings state_before_load
                         165 166 H))).
Defined.

Lemma sender_is_active_witness :
  "dave" ≠ BOT_NICK example_settings
  ∧ 150 - ACTIVE_DECAY example_settings ≤ 150
  ∧ 200 - ACTIVE_DECAY example_settings ≤ 150
  ∧ "dave" ∈ active_users example_settings
               (users_last_activity
                  (get_active_user_count example_settings
                     (on_pubmsg example_settings state_before_load
                        "dave" "hello" 150 150 []).1 200).2)
  ∧ (get_active_user_count example_settings
       (on_pubmsg example_settings state_before_load "dave" "hello" 150 150 []).1
       200).1
    = S (get_active_user_count example_settings
           (set_users_last_activity
              (delete "dave"
                 (users_last_activity
                    (on_pubmsg example_settings state_before_load
                       "dave" "hello" 150 150 []).1))
              (on_pubmsg example_settings state_before_load
                 "dave" "hello" 150 150 []).1)
           200).1.
Proof.
  assert (Hbot : "dave" ≠ BOT_NICK example_settings)
    by (intros E; discriminate E).
  assert (H1 : 150 - ACTIVE_DECAY example_settings ≤ 150) by (simpl; lia).
  assert (H2 : 200 - ACTIVE_DECAY example_settings ≤ 150) by (simpl; lia).
  repeat (split; [assumption|]).
  pose proof (sender_is_active example_settings state_before_load "dave" "hello"
                150 150 200 [] Hbot H1 H2) as (_ & _ & _ & Hin & Hsucc & _).
  split; [exact Hin | exact Hsucc].
Defined.

Lemma reply_means_no_vote_witness :
  (on_pubmsg example_settings state_before_stop "bob" "!stopgame" 150 150 []).2
    ≠ []
  ∧ stop_ballot
      (on_pubmsg example_settings state_before_stop "bob" "!stopgame"
         150 150 []).1
    = stop_ballot state_before_stop.
Proof.
  assert (H : (on_pubmsg example_settings state_before_stop "bob" "!stopgame"
                 150 150 []).2 ≠ [])
    by (vm_compute; intros E; discriminate E).
  split; [exact H|].
  exact (proj2 (proj2 (reply_means_no_vote example_settings state_before_stop
                         "bob" "!stopgame" 150 150 [] H))).
Defined.

Lemma no_votes_without_game_witness :
  reachable example_settings state_after_stop
  ∧ game state_after_stop = None
  ∧ stopgame_voters state_after_stop = ∅.
Proof.
  assert (Hr : reachable example_settings state_after_stop).
  { exists (run_before_stop ++ [Tick 169 169 169])%list.
    unfold state_after_stop. reflexivity. }
  assert (Hg : game state_after_stop = None) by (vm_compute; reflexivity).
  repeat (split; [assumption|]).
  exact (proj1 (proj2 (proj2 (no_votes_without_game example_settings
                                state_after_stop 170 170 170 Hr Hg)))).
Defined.

Lemma iteration_silent_before_interval_witness :
  (_vote_loop example_settings state_before_load 165 165 165).2 ≠ []
  ∧ ∃ t, (load_vote_start state_before_load = Some t
          ∨ stopgame_vote_start state_before_load = Some t
          ∨ command_vote_start state_before_load = Some t)
         ∧ VOTE_INTERVAL example_settings ≤ 165 - t.
Proof.
  assert (H : (_vote_loop example_settings state_before_load 165 165 165).2 ≠ [])
    by (vm_compute; intros E; discriminate E).
  split; [exact H|].
  exact (iteration_silent_before_interval example_settings state_before_load
           165 165 165 H).
Defined.

Lemma idle_iteration_changes_nothing_witness :
  reachable example_settings state_before_load
  ∧ resolution example_settings state_before_load 150 = None
  ∧ (_vote_loop example_settings state_before_load 150 150 150).2 = []
  ∧ game (_vote_loop example_settings state_before_load 150 150 150).1
    = Some "games/zork"
  ∧ load_ballot (_vote_loop example_settings state_before_load 150 150 150).1
    = ({["alice" := "advent"; "bob" := "advent"]},
       [("advent", {["alice"; "bob"]})], Some 135)
  ∧ command_ballot (_vote_loop example_settings state_before_load 150 150 150).1
    = ({["bob" := "north"]}, [("north", {["bob"]})], Some 140)
  ∧ stop_ballot (_vote_loop example_settings state_before_load 150 150 150).1
    = ({["carol"]}, Some 141).
Proof.
  assert (Hr : reachable example_settings state_before_load).
  { exists run_before_load. unfold state_before_load. reflexivity. }
  assert (Hres : resolution example_settings state_before_load 150 = None)
    by (vm_compute; reflexivity).
  repeat (split; [assumption|]).
  pose proof (idle_iteration_changes_nothing example_settings state_before_load
                150 150 150 Hr Hres) as (Hev & Hg & Hc & Hl & Hs).
  split; [exact Hev|].
  split; [rewrite Hg; vm_compute; reflexivity|].
  split; [rewrite Hl; vm_compute; reflexivity|].
  split; [rewrite Hc; vm_compute; reflexivity | rewrite Hs; vm_compute; reflexivity].
Defined.

Lemma votes_add_up_witness :
  reachable example_settings state_before_load
  ∧ total_votes (votes state_before_load)
    = size (voter_choices state_before_load)
  ∧ total_votes (game_votes state_before_load)
    = size (game_voter_choices state_before_load).
Proof.
  assert (Hr : reachable example_settings state_before_load).
  { exists run_before_load. unfold state_before_load. reflexivity. }
  split; [exact Hr|].
  exact (votes_add_up example_settings state_before_load Hr).
Defined.

Lemma calls_need_quorum_witness :
  reachable example_settings state_before_command
  ∧ GameSend "north"
      ∈ (_vote_loop example_settings state_before_command 170 170 170).2
  ∧ tick_required_votes example_settings state_before_command 170 170 = 2
  ∧ supporters (voter_choices state_before_command) "north" = 2%nat
  ∧ tick_required_votes example_settings state_before_command 170 170
    ≤ Z.of_nat (supporters (voter_choices state_before_command) "north")
  ∧ reachable example_settings state_before_load
  ∧ GameStart "games/advent"
      ∈ (_vote_loop example_settings state_before_load 165 165 165).2
  ∧ (∃ g, "games/advent" = Py.path_join (GAME_DIR example_settings) g
          ∧ tick_required_votes example_settings state_before_load 165 165
            ≤ Z.of_nat (supporters (game_voter_choices state_before_load) g))
  ∧ reachable example_settings state_before_stop
  ∧ is_Some (game state_before_stop)
  ∧ game (_vote_loop example_settings state_before_stop 169 169 169).1 = None
  ∧ tick_required_votes example_settings state_before_stop 169 169
    ≤ Z.of_nat (size (stopgame_voters state_before_stop)).
Proof.
  assert (Hr : reachable example_settings state_before_command).
  { exists run_before_command. unfold state_before_command. reflexivity. }
  assert (Hsend : GameSend "north"
            ∈ (_vote_loop example_settings state_before_command 170 170 170).2).
  { refine (bool_decide_unpack _ _). vm_compute. exact I. }
  assert (Hr' : reachable example_settings state_before_load).
  { exists run_before_load. unfold state_before_load. reflexivity. }
  assert (Hstart : GameStart "games/advent"
            ∈ (_vote_loop example_settings state_before_load 165 165 165).2).
  { refine (bool_decide_unpack _ _). vm_compute. exact I. }
  assert (Hr'' : reachable example_settings state_before_stop).
  { exists run_before_stop. unfold state_before_stop. reflexivity. }
  assert (Hgame : is_Some (game state_before_stop)).
  { exists "games/zork". vm_compute. reflexivity. }
  assert (Hnone : game (_vote_loop example_settings state_before_stop
                          169 169 169).1 = None)
    by (vm_compute; reflexivity).
  split; [exact Hr|]. split; [exact Hsend|].
  split; [vm_compute; reflexivity|]. split; [vm_compute; reflexivity|].
  split.
  { exact (proj1 (calls_need_quorum example_settings state_before_command
                    170 170 170 Hr) "north" Hsend). }
  split; [exact Hr'|]. split; [exact Hstart|].
  split.
  { exact (proj1 (proj2 (calls_need_quorum example_settings state_before_load
                           165 165 165 Hr')) "games/advent" Hstart). }
  split; [exact Hr''|]. split; [exact Hgame|]. split; [exact Hnone|].
  exact (proj2 (proj2 (calls_need_quorum example_settings state_before_stop
                         169 169 169 Hr'')) Hgame Hnone).
Defined.

Lemma only_listed_games_start_witness :
  GameStart "games/zork" ∈ run_events example_settings init run_zork
  ∧ ∃ g, g ∈ listed run_zork
         ∧ "games/zork" = Py.path_join (GAME_DIR example_settings) g.
Proof.
  assert (H : GameStart "games/zork"
                ∈ run_events example_settings init run_zork).
  { refine (bool_decide_unpack _ _). vm_compute. exact I. }
  split; [exact H|].
  exact (only_listed_games_start example_settings run_zork "games/zork" H).
Defined.

Lemma replay_returns_last_relayed_witness :
  0 ≤ BUFFERLENGTH example_settings
  ∧ replay_buffer init = []
  ∧ (relay_lines example_settings relay_start init reads_lost_connection).2
    = Privmsg (CHANNEL example_settings) <$> ["one"; "two"]
  ∧ (on_pubmsg example_settings
       (relay_lines example_settings relay_start init reads_lost_connection).1.2
       "alice" "!replay" 0 0 []).2
    = [Privmsg "#if" "one"; Privmsg "#if" "two"].
Proof.
  assert (HN : 0 ≤ BUFFERLENGTH example_settings) by (simpl; lia).
  assert (He : replay_buffer init = []) by reflexivity.
  repeat (split; [assumption|]).
  pose proof (replay_returns_last_relayed example_settings relay_start init
                reads_lost_connection "alice" 0 0 [] HN He)
    as (Hev & _ & _ & _ & _ & Hreplay & _).
  split; [exact Hev | exact Hreplay].
Defined.

Lemma game_change_discards_votes_witness :
  game (_vote_loop example_settings state_before_load 165 165 165).1
    ≠ game state_before_load
  ∧ stopgame_voters (_vote_loop example_settings state_before_load 165 165 165).1
    = ∅.
Proof.
  assert (H : game (_vote_loop example_settings state_before_load
                      165 165 165).1 ≠ game state_before_load)
    by (vm_compute; intros E; discriminate E).
  split; [exact H|].
  exact (proj2 (proj2 (proj2 (proj2
           (game_change_discards_votes example_settings state_before_load
              165 165 165 H))))).
Defined.
